(** * OpusHeader: the "OpusHead" identification-header codec

    A shallow embedding of [ParseOpusHeader], [WriteOpusHeader], the
    little-endian reader [ReadLE16] and the channel-mapping table
    [kOpusChannelMap] of the SoftOpus header code, and the properties of
    the header layout proved about them.

    Conventions of the embedding.
    - C integers are [Z]; every conversion that can wrap is written out
      ([to_uint8], [to_uint16], [to_int16], [to_int], [to_size_t]).
    - A byte buffer [uint8_t* p, size_t n] is a [list Z] whose length is
      [n]; its cells hold values of [uint8_t].
    - The target is little-endian with a 64-bit [size_t] (the Android
      LP64 ABIs): [memcpy] from the address of an integer copies its low
      bytes first.
    - A store or a table read outside its array is undefined behaviour in
      C++; the writer therefore runs in the [run] monad, whose [Undefined]
      outcome records the fault instead of inventing a value. *)

From Stdlib Require Import ZArith List Lia Ascii String.
From stdpp Require Import base list.

Local Open Scope Z_scope.

(** ** Integer conversions *)

Definition to_uint8 (z : Z) : Z := z mod 2 ^ 8.
Definition to_uint16 (z : Z) : Z := z mod 2 ^ 16.
Definition to_size_t (z : Z) : Z := z mod 2 ^ 64.
Definition to_uint32 (z : Z) : Z := z mod 2 ^ 32.

(** [static_cast<int16_t>]: two's-complement reinterpretation. *)
Definition to_int16 (z : Z) : Z :=
  let u := z mod 2 ^ 16 in if u <? 2 ^ 15 then u else u - 2 ^ 16.

(** Conversion to [int] (the writer's return type). *)
Definition to_int (z : Z) : Z :=
  let u := z mod 2 ^ 32 in if u <? 2 ^ 31 then u else u - 2 ^ 32.

(** The object representation of an integer on a little-endian target:
    its [n] low bytes, least significant first. *)
Fixpoint le_bytes (n : nat) (z : Z) : list Z :=
  match n with
  | O => []
  | S k => z mod 256 :: le_bytes k (z / 256)
  end.

(** ** Constants of the layout *)

Definition kMaxChannels : Z := 8.

Definition kOpusChannelMap : list (list Z) :=
  [ [0; 0; 0; 0; 0; 0; 0; 0];
    [0; 1; 0; 0; 0; 0; 0; 0];
    [0; 2; 1; 0; 0; 0; 0; 0];
    [0; 1; 2; 3; 0; 0; 0; 0];
    [0; 4; 1; 2; 3; 0; 0; 0];
    [0; 4; 1; 2; 3; 5; 0; 0];
    [0; 4; 1; 2; 3; 5; 6; 0];
    [0; 6; 1; 2; 3; 4; 5; 7] ].

Definition kOpusHeaderSize : Z := 19.
Definition kOpusHeaderLabelOffset : Z := 0.
Definition kOpusHeaderVersionOffset : Z := 8.
Definition kOpusHeaderChannelsOffset : Z := 9.
Definition kOpusHeaderSkipSamplesOffset : Z := 10.
Definition kOpusHeaderSampleRateOffset : Z := 12.
Definition kOpusHeaderGainOffset : Z := 16.
Definition kOpusHeaderChannelMappingOffset : Z := 18.
Definition kOpusHeaderNumStreamsOffset : Z := 19.
Definition kOpusHeaderNumCoupledStreamsOffset : Z := 20.
Definition kOpusHeaderStreamMapOffset : Z := 21.

Definition kMaxChannelsWithDefaultLayout : Z := 2.
Definition kDefaultOpusChannelLayout : list Z := [0; 1].

(** The bytes of the literal ["OpusHead"]. *)
Definition OpusHead_label : list Z :=
  map (fun c => Z.of_nat (nat_of_ascii c)) (list_ascii_of_string "OpusHead").

(** ** The header structure *)

(** Modelled from the spec: the declaration of [struct OpusHeader]
    (OpusHeader.h) is not part of the sources at hand.  The field names are
    the ones the two functions use; the field types are those of the data
    model: [channels] an integer, [skip_samples] an unsigned 16-bit value,
    [gain_db] a signed 16-bit value, [channel_mapping] an unsigned 8-bit
    value, the two stream counts integers, and [stream_map] an array of
    [kMaxChannels] bytes. *)
Record OpusHeader : Type := mkOpusHeader {
  channels : Z;
  channel_mapping : Z;
  num_streams : Z;
  num_coupled : Z;
  gain_db : Z;
  skip_samples : Z;
  stream_map : list Z
}.

Definition set_channels (h : OpusHeader) (v : Z) : OpusHeader :=
  mkOpusHeader v (channel_mapping h) (num_streams h) (num_coupled h)
               (gain_db h) (skip_samples h) (stream_map h).
Definition set_channel_mapping (h : OpusHeader) (v : Z) : OpusHeader :=
  mkOpusHeader (channels h) v (num_streams h) (num_coupled h)
               (gain_db h) (skip_samples h) (stream_map h).
Definition set_num_streams (h : OpusHeader) (v : Z) : OpusHeader :=
  mkOpusHeader (channels h) (channel_mapping h) v (num_coupled h)
               (gain_db h) (skip_samples h) (stream_map h).
Definition set_num_coupled (h : OpusHeader) (v : Z) : OpusHeader :=
  mkOpusHeader (channels h) (channel_mapping h) (num_streams h) v
               (gain_db h) (skip_samples h) (stream_map h).
Definition set_gain_db (h : OpusHeader) (v : Z) : OpusHeader :=
  mkOpusHeader (channels h) (channel_mapping h) (num_streams h) (num_coupled h)
               v (skip_samples h) (stream_map h).
Definition set_skip_samples (h : OpusHeader) (v : Z) : OpusHeader :=
  mkOpusHeader (channels h) (channel_mapping h) (num_streams h) (num_coupled h)
               (gain_db h) v (stream_map h).
(** [header->stream_map[i] = v]; the parser stores only at indices below
    [kMaxChannels], inside the array. *)
Definition set_stream_map (h : OpusHeader) (i : Z) (v : Z) : OpusHeader :=
  mkOpusHeader (channels h) (channel_mapping h) (num_streams h) (num_coupled h)
               (gain_db h) (skip_samples h) (<[Z.to_nat i := v]> (stream_map h)).

(** ** Reading the input buffer *)

(** [data[i]] for an index inside the buffer. *)
Definition byte_at (data : list Z) (i : Z) : Z :=
  default 0 (data !! Z.to_nat i).

Definition data_size (data : list Z) : Z := Z.of_nat (length data).

(** The guard of [ReadLE16]: the second byte of the field is not within
    the buffer. *)
Definition ReadLE16_starved (data : list Z) (read_offset : Z) : bool :=
  data_size data <=? to_uint32 (read_offset + 1).

Definition ReadLE16 (data : list Z) (read_offset : Z) : Z :=
  if ReadLE16_starved data read_offset then 0
  else
    let val := to_uint16 (byte_at data read_offset) in
    to_uint16 (Z.lor val (Z.shiftl (byte_at data (to_uint32 (read_offset + 1))) 8)).

(** ** The parser *)

(** The verbose log line of each rejecting branch ([ALOGV]); it goes to the
    system log, not to the caller. *)
Inductive LogMsg : Type :=
| LogHeaderTooSmall
| LogBadChannelCount (n : Z)
| LogMissingStreamMap
| LogInsufficientStreamMap (n : Z)
| LogInconsistentMapping.

(** What a call leaves behind: the [bool] it returns, the caller's
    [OpusHeader] after the call, and the line it logged. *)
Record parse_result : Type := mkParse {
  parse_ret : bool;
  parse_hdr : OpusHeader;
  parse_log : option LogMsg
}.

(** [for (int i = ..; i < header->channels; ++i)
       header->stream_map[i] = data[kOpusHeaderStreamMapOffset + i];]
    with [n] iterations left. *)
Fixpoint copy_stream_map (n : nat) (i : Z) (data : list Z) (h : OpusHeader)
  : OpusHeader :=
  match n with
  | O => h
  | S k =>
      copy_stream_map k (i + 1) data
        (set_stream_map h i (byte_at data (kOpusHeaderStreamMapOffset + i)))
  end.

Definition ParseOpusHeader (data : list Z) (header : OpusHeader) : parse_result :=
  if data_size data <? kOpusHeaderSize then
    mkParse false header (Some LogHeaderTooSmall)
  else
    let header := set_channels header (byte_at data kOpusHeaderChannelsOffset) in
    if (channels header <? 1) || (kMaxChannels <? channels header) then
      mkParse false header (Some (LogBadChannelCount (channels header)))
    else
      let header :=
        set_skip_samples header (ReadLE16 data kOpusHeaderSkipSamplesOffset) in
      let header :=
        set_gain_db header (to_int16 (ReadLE16 data kOpusHeaderGainOffset)) in
      let header :=
        set_channel_mapping header (byte_at data kOpusHeaderChannelMappingOffset) in
      if channel_mapping header =? 0 then
        if kMaxChannelsWithDefaultLayout <? channels header then
          mkParse false header (Some LogMissingStreamMap)
        else
          let header := set_num_streams header 1 in
          let header :=
            set_num_coupled header (if 1 <? channels header then 1 else 0) in
          let header := set_stream_map header 0 0 in
          let header := set_stream_map header 1 1 in
          mkParse true header None
      else if data_size data
              <? to_size_t (kOpusHeaderStreamMapOffset + channels header) then
        mkParse false header (Some (LogInsufficientStreamMap (channels header)))
      else
        let header :=
          set_num_streams header (byte_at data kOpusHeaderNumStreamsOffset) in
        let header :=
          set_num_coupled header (byte_at data kOpusHeaderNumCoupledStreamsOffset) in
        if negb (num_streams header + num_coupled header =? channels header) then
          mkParse false header (Some LogInconsistentMapping)
        else
          mkParse true
            (copy_stream_map (Z.to_nat (channels header)) 0 data header) None.

(** ** The writer *)

Inductive fault : Type := OutOfBoundsRead | OutOfBoundsWrite.

Inductive run (A : Type) : Type :=
| Done (a : A)
| Undefined (f : fault).
Arguments Done {A} a.
Arguments Undefined {A} f.

Definition run_bind {A B : Type} (m : run A) (k : A -> run B) : run B :=
  match m with
  | Done a => k a
  | Undefined f => Undefined f
  end.

Notation "'do' x <- m ; k" := (run_bind m (fun x => k))
  (at level 10, x name, m at level 100, k at level 200,
   format "'[v' 'do'  x  <-  m ; '/' k ']'").

(** [output[i] = v] on a buffer of [length out] bytes. *)
Definition store (out : list Z) (i : Z) (v : Z) : run (list Z) :=
  if (0 <=? i) && (i <? Z.of_nat (length out))
  then Done (<[Z.to_nat i := v]> out)
  else Undefined OutOfBoundsWrite.

(** [memcpy(output + off, src, length src)] *)
Fixpoint memcpy (out : list Z) (off : Z) (src : list Z) : run (list Z) :=
  match src with
  | [] => Done out
  | b :: bs => do out' <- store out off b; memcpy out' (off + 1) bs
  end.

(** [memset(output, c, n)] for [n] within the buffer. *)
Definition memset (out : list Z) (c : Z) (n : Z) : list Z :=
  replicate (Z.to_nat n) (to_uint8 c) ++ drop (Z.to_nat n) out.

(** [kOpusChannelMap[r][c]] *)
Definition kOpusChannelMap_at (r c : Z) : run Z :=
  if (0 <=? r) && (0 <=? c) then
    match kOpusChannelMap !! Z.to_nat r with
    | Some row =>
        match row !! Z.to_nat c with
        | Some v => Done v
        | None => Undefined OutOfBoundsRead
        end
    | None => Undefined OutOfBoundsRead
    end
  else Undefined OutOfBoundsRead.

(** [for (int i = ..; i < header.channels; ++i)
       output[kOpusHeaderStreamMapOffset + i] =
           kOpusChannelMap[header.channels - 1][i];]
    with [n] iterations left. *)
Fixpoint write_stream_map (n : nat) (i : Z) (nch : Z) (out : list Z)
  : run (list Z) :=
  match n with
  | O => Done out
  | S k =>
      do v <- kOpusChannelMap_at (nch - 1) i;
      do out' <- store out (kOpusHeaderStreamMapOffset + i) v;
      write_stream_map k (i + 1) nch out'
  end.

(** The result is the returned [int] and the output buffer after the call. *)
Definition WriteOpusHeader (header : OpusHeader) (input_sample_rate : Z)
    (output : list Z) : run (Z * list Z) :=
  let output_size := Z.of_nat (length output) in
  let total_size := to_size_t (kOpusHeaderStreamMapOffset + channels header) in
  if output_size <? total_size then Done (-1, output)
  else
    let out := memset output 0 output_size in
    do out <- memcpy out kOpusHeaderLabelOffset OpusHead_label;
    do out <- store out kOpusHeaderVersionOffset 1;
    do out <- store out kOpusHeaderChannelsOffset (to_uint8 (channels header));
    do out <- memcpy out kOpusHeaderSkipSamplesOffset
                (le_bytes 2 (skip_samples header));
    do out <- memcpy out kOpusHeaderSampleRateOffset
                (le_bytes 4 input_sample_rate);
    do out <- memcpy out kOpusHeaderGainOffset (le_bytes 2 (gain_db header));
    if 2 <? channels header then
      do out <- store out kOpusHeaderChannelMappingOffset 1;
      do out <- store out kOpusHeaderNumStreamsOffset (to_uint8 (channels header));
      do out <- store out kOpusHeaderNumCoupledStreamsOffset 0;
      do out <- write_stream_map (Z.to_nat (channels header)) 0
                  (channels header) out;
      Done (to_int (to_size_t (kOpusHeaderStreamMapOffset + channels header + 1)),
            out)
    else
      do out <- store out kOpusHeaderChannelMappingOffset 0;
      Done (to_int (kOpusHeaderChannelMappingOffset + 1), out).

(** ** Definitions used in the statements and proofs *)

(** A caller's header before the call, all fields zero. *)
Definition header0 : OpusHeader :=
  mkOpusHeader 0 0 0 0 0 0 (replicate 8 0).

(** The statements of [WriteOpusHeader] after the size check and the
    [memset], as a function of the cleared buffer. *)
Definition write_fields (header : OpusHeader) (input_sample_rate : Z)
    (out : list Z) : run (Z * list Z) :=
  do out <- memcpy out kOpusHeaderLabelOffset OpusHead_label;
  do out <- store out kOpusHeaderVersionOffset 1;
  do out <- store out kOpusHeaderChannelsOffset (to_uint8 (channels header));
  do out <- memcpy out kOpusHeaderSkipSamplesOffset
              (le_bytes 2 (skip_samples header));
  do out <- memcpy out kOpusHeaderSampleRateOffset
              (le_bytes 4 input_sample_rate);
  do out <- memcpy out kOpusHeaderGainOffset (le_bytes 2 (gain_db header));
  if 2 <? channels header then
    do out <- store out kOpusHeaderChannelMappingOffset 1;
    do out <- store out kOpusHeaderNumStreamsOffset (to_uint8 (channels header));
    do out <- store out kOpusHeaderNumCoupledStreamsOffset 0;
    do out <- write_stream_map (Z.to_nat (channels header)) 0
                (channels header) out;
    Done (to_int (to_size_t (kOpusHeaderStreamMapOffset + channels header + 1)),
          out)
  else
    do out <- store out kOpusHeaderChannelMappingOffset 0;
    Done (to_int (kOpusHeaderChannelMappingOffset + 1), out).

(** The header as it lies in the buffer: the fixed region up to the gain
    field, then the mapping family and, above two channels, the stream
    map. *)
Definition fixed_region (header : OpusHeader) (rate : Z) : list Z :=
  OpusHead_label ++ [1; to_uint8 (channels header)]
    ++ le_bytes 2 (skip_samples header)
    ++ le_bytes 4 rate
    ++ le_bytes 2 (gain_db header).

Definition channel_map_row (nch : Z) : list Z :=
  take (Z.to_nat nch) (default [] (kOpusChannelMap !! Z.to_nat (nch - 1))).

Definition header_bytes (header : OpusHeader) (rate : Z) : list Z :=
  fixed_region header rate ++
  (if 2 <? channels header
   then [1; to_uint8 (channels header); 0] ++ channel_map_row (channels header)
   else [0]).

Definition written_size (header : OpusHeader) : Z :=
  if 2 <? channels header then kOpusHeaderStreamMapOffset + channels header
  else kOpusHeaderSize.

Definition returned_size (header : OpusHeader) : Z :=
  if 2 <? channels header then kOpusHeaderStreamMapOffset + channels header + 1
  else kOpusHeaderSize.

(** A header with [n] channels and every other field zero. *)
Definition header_of_channels (n : Z) : OpusHeader :=
  mkOpusHeader n 0 0 0 0 0 (replicate 8 0).

(** Modelled from the spec: the five causes of rejection of the error
    taxonomy; the code has no such type, its rejecting branches return
    [false] and differ in the line they log. *)
Inductive ParseError : Type :=
| TooShort
| InvalidChannelCount
| MissingStreamMap
| TruncatedStreamMap
| InconsistentStreamMap.

(** The cause each log line stands for. *)
Definition error_of_log (m : LogMsg) : ParseError :=
  match m with
  | LogHeaderTooSmall => TooShort
  | LogBadChannelCount _ => InvalidChannelCount
  | LogMissingStreamMap => MissingStreamMap
  | LogInsufficientStreamMap _ => TruncatedStreamMap
  | LogInconsistentMapping => InconsistentStreamMap
  end.

(** Modelled from the spec: the validation sequence of the parser's
    contract, first failing check first; [None] when every check passes. *)
Definition spec_parse_error (data : list Z) : option ParseError :=
  if data_size data <? 19 then Some TooShort
  else
    let channel_count := byte_at data 9 in
    if negb ((1 <=? channel_count) && (channel_count <=? 8))
    then Some InvalidChannelCount
    else if byte_at data 18 =? 0 then
      if 2 <? channel_count then Some MissingStreamMap else None
    else if data_size data <? 19 + 2 + channel_count
      then Some TruncatedStreamMap
    else if negb (byte_at data 19 + byte_at data 20 =? channel_count)
      then Some InconsistentStreamMap
    else None.

(** One rejected buffer for each cause of the taxonomy. *)
Definition too_short_input : list Z := replicate 18 0.
Definition bad_count_input : list Z := replicate 19 0.
Definition missing_map_input : list Z := <[9%nat := 3]> (replicate 19 0).
Definition truncated_map_input : list Z :=
  <[18%nat := 1]> (<[9%nat := 2]> (replicate 19 0)).
Definition inconsistent_map_input : list Z :=
  <[20%nat := 1]> (<[19%nat := 2]> (<[18%nat := 1]> (<[9%nat := 2]>
    (replicate 23 0)))).

(** A three-channel header with an explicit stream map. *)
Definition three_channel_input : list Z :=
  [79; 112; 117; 115; 72; 101; 97; 100; 1; 3; 56; 1; 128; 187; 0; 0;
   251; 255; 1; 2; 1; 0; 2; 1].

(** A stereo header with a gain of -5 and a pre-skip of 312. *)
Definition stereo_header : OpusHeader :=
  mkOpusHeader 2 0 0 0 (-5) 312 (replicate 8 0).

(** ** The parser with every access checked *)

(** [data[i]], faulting outside the [data_size] bytes of the buffer. *)
Definition load (data : list Z) (i : Z) : run Z :=
  if (0 <=? i) && (i <? data_size data) then
    match data !! Z.to_nat i with
    | Some v => Done v
    | None => Undefined OutOfBoundsRead
    end
  else Undefined OutOfBoundsRead.

(** [ReadLE16] with its two reads checked. *)
Definition ReadLE16_checked (data : list Z) (read_offset : Z) : run Z :=
  if ReadLE16_starved data read_offset then Done 0
  else
    do b0 <- load data read_offset;
    do b1 <- load data (to_uint32 (read_offset + 1));
    Done (to_uint16 (Z.lor (to_uint16 b0) (Z.shiftl b1 8))).

(** [header->stream_map[i] = v], faulting outside the array. *)
Definition store_stream_map (h : OpusHeader) (i : Z) (v : Z) : run OpusHeader :=
  if (0 <=? i) && (i <? Z.of_nat (length (stream_map h)))
  then Done (set_stream_map h i v)
  else Undefined OutOfBoundsWrite.

(** The copying loop of the parser with its read and its store checked. *)
Fixpoint copy_stream_map_checked (n : nat) (i : Z) (data : list Z)
    (h : OpusHeader) : run OpusHeader :=
  match n with
  | O => Done h
  | S k =>
      do v <- load data (kOpusHeaderStreamMapOffset + i);
      do h' <- store_stream_map h i v;
      copy_stream_map_checked k (i + 1) data h'
  end.

(** [ParseOpusHeader], statement for statement, with every [data[..]] a
    [load] and every [stream_map[..] = ..] a [store_stream_map]. *)
Definition ParseOpusHeader_checked (data : list Z) (header : OpusHeader)
  : run parse_result :=
  if data_size data <? kOpusHeaderSize then
    Done (mkParse false header (Some LogHeaderTooSmall))
  else
    do nch <- load data kOpusHeaderChannelsOffset;
    let header := set_channels header nch in
    if (channels header <? 1) || (kMaxChannels <? channels header) then
      Done (mkParse false header (Some (LogBadChannelCount (channels header))))
    else
      do skip <- ReadLE16_checked data kOpusHeaderSkipSamplesOffset;
      let header := set_skip_samples header skip in
      do gain <- ReadLE16_checked data kOpusHeaderGainOffset;
      let header := set_gain_db header (to_int16 gain) in
      do family <- load data kOpusHeaderChannelMappingOffset;
      let header := set_channel_mapping header family in
      if channel_mapping header =? 0 then
        if kMaxChannelsWithDefaultLayout <? channels header then
          Done (mkParse false header (Some LogMissingStreamMap))
        else
          let header := set_num_streams header 1 in
          let header :=
            set_num_coupled header (if 1 <? channels header then 1 else 0) in
          do header <- store_stream_map header 0 0;
          do header <- store_stream_map header 1 1;
          Done (mkParse true header None)
      else if data_size data
              <? to_size_t (kOpusHeaderStreamMapOffset + channels header) then
        Done (mkParse false header
                (Some (LogInsufficientStreamMap (channels header))))
      else
        do ns <- load data kOpusHeaderNumStreamsOffset;
        let header := set_num_streams header ns in
        do nc <- load data kOpusHeaderNumCoupledStreamsOffset;
        let header := set_num_coupled header nc in
        if negb (num_streams header + num_coupled header =? channels header) then
          Done (mkParse false header (Some LogInconsistentMapping))
        else
          do header <- copy_stream_map_checked
                         (Z.to_nat (channels header)) 0 data header;
          Done (mkParse true header None).

(** A stereo header with mapping family 0, as it lies in a buffer. *)
Definition stereo_input : list Z :=
  [79; 112; 117; 115; 72; 101; 97; 100; 1; 2; 56; 1; 68; 172; 0; 0;
   251; 255; 0].

(** ** AudioInputDescriptor and AudioInputCollection *)

(** [RecordClientDescriptor] is declared in ClientDescriptor.h, outside the
    sources at hand.  The functions below only call its accessors, so a
    client is the record of what those return. *)
Module client.
Record t : Type := mk {
  portId : Z;
  session : Z;
  source : Z;
  active : bool;
  isSoundTrigger : bool;
  hasPreferredDevice : bool
}.
End client.

(** The members of [AudioInputDescriptor] the functions below read;
  [mClients] is the sequence [getClientIterable()] yields. *)
Record AudioInputDescriptor : Type := mkAudioInputDescriptor {
mId : Z;
mIoHandle : Z;
mDevice : Z;
mGlobalActiveCount : Z;
mClients : list client.t
}.

Section AudioInput.

(** What the file takes from headers outside the sources at hand:
    [source_priority] (policy.h), the [audio_source_t] and
    [audio_devices_t] constants, [AudioInputDescriptor::isActive] and
    [is_virtual_input_device].  They are parameters here. *)
Variable source_priority : Z -> Z.
Variable AUDIO_SOURCE_DEFAULT : Z.
Variable AUDIO_SOURCE_VOICE_RECOGNITION : Z.
Variable AUDIO_SOURCE_HOTWORD : Z.
Variable AUDIO_DEVICE_IN_DEFAULT : Z.
Variable AUDIO_DEVICE_BIT_IN : Z.
Variable isActive : AudioInputDescriptor -> bool.
Variable is_virtual_input_device : Z -> bool.

(** The loop of [AudioInputDescriptor::isSourceActive] over the clients
    still to visit. *)
Fixpoint isSourceActive_loop (clients : list client.t) (source : Z) : bool :=
  match clients with
  | [] => false
  | c :: rest =>
      if client.active c &&
         ((client.source c =? source) ||
          ((source =? AUDIO_SOURCE_VOICE_RECOGNITION) &&
           (client.source c =? AUDIO_SOURCE_HOTWORD) &&
           client.isSoundTrigger c))
      then true
      else isSourceActive_loop rest source
  end.

Definition AudioInputDescriptor_isSourceActive
    (d : AudioInputDescriptor) (source : Z) : bool :=
  isSourceActive_loop (mClients d) source.

(** The loop of [getHighestPrioritySource] with its two locals. *)
Fixpoint getHighestPrioritySource_loop (clients : list client.t)
    (activeOnly : bool) (source priority : Z) : Z :=
  match clients with
  | [] => source
  | c :: rest =>
      if activeOnly && negb (client.active c) then
        getHighestPrioritySource_loop rest activeOnly source priority
      else
        let curPriority := source_priority (client.source c) in
        if priority <? curPriority then
          getHighestPrioritySource_loop rest activeOnly
            (client.source c) curPriority
        else
          getHighestPrioritySource_loop rest activeOnly source priority
  end.

Definition AudioInputDescriptor_getHighestPrioritySource
    (d : AudioInputDescriptor) (activeOnly : bool) : Z :=
  getHighestPrioritySource_loop (mClients d) activeOnly
    AUDIO_SOURCE_DEFAULT (-1).

Definition AudioInputDescriptor_inputSource
    (d : AudioInputDescriptor) (activeOnly : bool) : Z :=
  AudioInputDescriptor_getHighestPrioritySource d activeOnly.

(** The loop of [clientsList]; [clients] is the vector built so far. *)
Fixpoint clientsList_loop (rest : list client.t)
    (activeOnly : bool) (source : Z) (preferredDeviceOnly : bool)
    (clients : list client.t) : list client.t :=
  match rest with
  | [] => clients
  | c :: rest' =>
      clientsList_loop rest' activeOnly source preferredDeviceOnly
        (if (negb activeOnly || client.active c)
            && ((source =? AUDIO_SOURCE_DEFAULT)
                || (source =? client.source c))
            && (negb preferredDeviceOnly || client.hasPreferredDevice c)
         then clients ++ [c]
         else clients)
  end.

Definition AudioInputDescriptor_clientsList (d : AudioInputDescriptor)
    (activeOnly : bool) (source : Z) (preferredDeviceOnly : bool)
  : list client.t :=
  clientsList_loop (mClients d) activeOnly source preferredDeviceOnly [].

(** [AudioInputCollection]: the descriptors in the order of [valueAt]. *)
Fixpoint AudioInputCollection_isSourceActive
    (inputs : list AudioInputDescriptor) (source : Z) : bool :=
  match inputs with
  | [] => false
  | inputDescriptor :: rest =>
      if AudioInputDescriptor_isSourceActive inputDescriptor source
      then true
      else AudioInputCollection_isSourceActive rest source
  end.

(** [None] is the [NULL] the function returns when the loop ends. *)
Fixpoint AudioInputCollection_getInputFromId
    (inputs : list AudioInputDescriptor) (id : Z)
  : option AudioInputDescriptor :=
  match inputs with
  | [] => None
  | inputDescriptor :: rest =>
      if mId inputDescriptor =? id then Some inputDescriptor
      else AudioInputCollection_getInputFromId rest id
  end.

(** The loop of [activeInputsCountOnDevices] with its [uint32_t] count. *)
Fixpoint activeInputsCountOnDevices_loop
    (inputs : list AudioInputDescriptor) (devices : Z) (count : Z) : Z :=
  match inputs with
  | [] => count
  | inputDescriptor :: rest =>
      activeInputsCountOnDevices_loop rest devices
        (if isActive inputDescriptor &&
            ((devices =? AUDIO_DEVICE_IN_DEFAULT) ||
             negb (Z.land (Z.land (mDevice inputDescriptor) devices)
                          (to_uint32 (Z.lnot AUDIO_DEVICE_BIT_IN)) =? 0))
         then to_uint32 (count + 1)
         else count)
  end.

Definition AudioInputCollection_activeInputsCountOnDevices
    (inputs : list AudioInputDescriptor) (devices : Z) : Z :=
  activeInputsCountOnDevices_loop inputs devices 0.

(** The loop of [getActiveInputs]; [activeInputs] is the vector so far. *)
Fixpoint getActiveInputs_loop (inputs : list AudioInputDescriptor)
    (ignoreVirtualInputs : bool) (activeInputs : list AudioInputDescriptor)
  : list AudioInputDescriptor :=
  match inputs with
  | [] => activeInputs
  | inputDescriptor :: rest =>
      getActiveInputs_loop rest ignoreVirtualInputs
        (if isActive inputDescriptor &&
            (negb ignoreVirtualInputs
             || negb (is_virtual_input_device (mDevice inputDescriptor)))
         then activeInputs ++ [inputDescriptor]
         else activeInputs)
  end.

Definition AudioInputCollection_getActiveInputs
    (inputs : list AudioInputDescriptor) (ignoreVirtualInputs : bool)
  : list AudioInputDescriptor :=
  getActiveInputs_loop inputs ignoreVirtualInputs [].

End AudioInput.

(** The clients a call with [activeOnly] looks at. *)
Definition considered (activeOnly : bool) (c : client.t) : Prop :=
  activeOnly = true -> client.active c = true.

(** The values the platform headers give the constants, and the priority
    order of policy.h, for the examples. *)
Definition example_source_priority (inputSource : Z) : Z :=
  if inputSource =? 7 then 9
  else if inputSource =? 5 then 8
  else if inputSource =? 6 then 5
  else if inputSource =? 1 then 4
  else if inputSource =? 1999 then 1
  else 0.

Definition example_clients : list client.t :=
  [ client.mk 10 1 1 false false false;
    client.mk 11 2 1999 true true false;
    client.mk 12 2 5 true false true ].

Definition example_input : AudioInputDescriptor :=
  mkAudioInputDescriptor 3 14 4 2 example_clients.

(** ** Smoke tests *)

Example OpusHead_label_bytes :
  OpusHead_label = [79; 112; 117; 115; 72; 101; 97; 100].
Proof. reflexivity. Qed.

Example write_stereo :
  WriteOpusHeader stereo_header 44100 (replicate 23 170)
  = Done (19, [79; 112; 117; 115; 72; 101; 97; 100; 1; 2; 56; 1;
               68; 172; 0; 0; 251; 255; 0; 0; 0; 0; 0]).
Proof. vm_compute. reflexivity. Qed.

(** ** The writer on a buffer with room to spare *)

Lemma WriteOpusHeader_unfold header rate output :
  WriteOpusHeader header rate output =
  if Z.of_nat (length output)
     <? to_size_t (kOpusHeaderStreamMapOffset + channels header)
  then Done (-1, output)
  else write_fields header rate (memset output 0 (Z.of_nat (length output))).
Proof. reflexivity. Qed.

Lemma memset_whole (out : list Z) :
  memset out 0 (Z.of_nat (length out)) = replicate (length out) 0.
Proof.
  unfold memset. rewrite Nat2Z.id, drop_all, app_nil_r. reflexivity.
Qed.

(** Bytes after the ones an operation touches are carried along. *)
Lemma store_app (out rest : list Z) i v out' :
  store out i v = Done out' ->
  store (out ++ rest) i v = Done (out' ++ rest).
Proof.
  unfold store. rewrite length_app.
  destruct (0 <=? i) eqn:E0; [|discriminate].
  destruct (i <? Z.of_nat (length out)) eqn:E1; [|discriminate].
  cbn. intros [= <-].
  apply Z.leb_le in E0. apply Z.ltb_lt in E1.
  replace (i <? Z.of_nat (length out + length rest)%nat) with true
    by (symmetry; apply Z.ltb_lt; lia).
  rewrite insert_app_l by lia. reflexivity.
Qed.

Lemma memcpy_app src : forall (out rest : list Z) off out',
  memcpy out off src = Done out' ->
  memcpy (out ++ rest) off src = Done (out' ++ rest).
Proof.
  induction src as [|b bs IH]; intros out rest off out'; cbn.
  - intros [= <-]. reflexivity.
  - destruct (store out off b) as [o|] eqn:E; [|discriminate].
    rewrite (store_app _ rest _ _ _ E). cbn. apply IH.
Qed.

Lemma write_stream_map_app n : forall i nch (out rest : list Z) out',
  write_stream_map n i nch out = Done out' ->
  write_stream_map n i nch (out ++ rest) = Done (out' ++ rest).
Proof.
  induction n as [|n IH]; intros i nch out rest out'; cbn.
  - intros [= <-]. reflexivity.
  - destruct (kOpusChannelMap_at (nch - 1) i) as [v|]; [cbn|discriminate].
    destruct (store out _ v) as [o|] eqn:E; [|discriminate].
    rewrite (store_app _ rest _ _ _ E). cbn. apply IH.
Qed.

Ltac carry_step rest :=
  match goal with
  | |- run_bind (memcpy ?o ?off ?src) _ = _ -> _ =>
      let E := fresh "E" in
      destruct (memcpy o off src) eqn:E; [|discriminate];
      rewrite (memcpy_app _ _ rest _ _ E); cbn [run_bind]
  | |- run_bind (store ?o ?i ?v) _ = _ -> _ =>
      let E := fresh "E" in
      destruct (store o i v) eqn:E; [|discriminate];
      rewrite (store_app _ rest _ _ _ E); cbn [run_bind]
  | |- run_bind (write_stream_map ?n ?i ?c ?o) _ = _ -> _ =>
      let E := fresh "E" in
      destruct (write_stream_map n i c o) eqn:E; [|discriminate];
      rewrite (write_stream_map_app _ _ _ _ rest _ E); cbn [run_bind]
  end.

Lemma write_fields_app header rate (out rest : list Z) r out' :
  write_fields header rate out = Done (r, out') ->
  write_fields header rate (out ++ rest) = Done (r, out' ++ rest).
Proof.
  unfold write_fields.
  do 6 carry_step rest.
  destruct (2 <? channels header).
  - do 4 carry_step rest. intros [= <- <-]. reflexivity.
  - carry_step rest. intros [= <- <-]. reflexivity.
Qed.

Lemma write_fields_exact header rate :
  1 <= channels header <= 8 ->
  write_fields header rate
    (replicate (Z.to_nat (kOpusHeaderStreamMapOffset + channels header)) 0)
  = Done (returned_size header,
          header_bytes header rate
            ++ replicate (Z.to_nat (kOpusHeaderStreamMapOffset + channels header
                                    - written_size header)) 0).
Proof.
  destruct header as [nch cm ns nc g s sm]. cbn [channels]. intros H.
  assert (nch = 1 \/ nch = 2 \/ nch = 3 \/ nch = 4 \/ nch = 5 \/ nch = 6
          \/ nch = 7 \/ nch = 8) as Hc by lia.
  unfold write_fields, header_bytes, fixed_region, returned_size, written_size.
  cbn [channels skip_samples gain_db le_bytes].
  generalize (s mod 256) ((s / 256) mod 256) (g mod 256) ((g / 256) mod 256).
  generalize (rate mod 256) ((rate / 256) mod 256)
             ((rate / 256 / 256) mod 256) ((rate / 256 / 256 / 256) mod 256).
  intros r0 r1 r2 r3 s0 s1 g0 g1.
  repeat (destruct Hc as [-> | Hc]); try subst nch; vm_compute; reflexivity.
Qed.

Lemma header_bytes_length header rate :
  1 <= channels header <= 8 ->
  Z.of_nat (length (header_bytes header rate)) = written_size header.
Proof.
  destruct header as [nch cm ns nc g s sm]. cbn [channels]. intros H.
  assert (nch = 1 \/ nch = 2 \/ nch = 3 \/ nch = 4 \/ nch = 5 \/ nch = 6
          \/ nch = 7 \/ nch = 8) as Hc by lia.
  unfold header_bytes, fixed_region, written_size.
  cbn [channels skip_samples gain_db].
  repeat (destruct Hc as [-> | Hc]); try subst nch; reflexivity.
Qed.

(** The writer on a header with 1 to 8 channels and a buffer of at least
    [21 + channels] bytes: the value it returns and the whole buffer it
    leaves. *)
Lemma WriteOpusHeader_layout header rate (output : list Z) :
  1 <= channels header <= 8 ->
  kOpusHeaderStreamMapOffset + channels header <= Z.of_nat (length output) ->
  WriteOpusHeader header rate output
  = Done (returned_size header,
          header_bytes header rate
            ++ replicate (Z.to_nat (Z.of_nat (length output)
                                    - written_size header)) 0).
Proof.
  intros Hc Hlen. rewrite WriteOpusHeader_unfold, memset_whole.
  unfold kOpusHeaderStreamMapOffset in *.
  replace (to_size_t (21 + channels header)) with (21 + channels header)
    by (unfold to_size_t; rewrite Z.mod_small; lia).
  replace (Z.of_nat (length output) <? 21 + channels header) with false
    by (symmetry; apply Z.ltb_ge; lia).
  set (k := Z.to_nat (21 + channels header)).
  replace (length output) with (k + (length output - k))%nat at 1 by lia.
  rewrite replicate_add.
  rewrite (write_fields_app _ _ _ _ _ _ (write_fields_exact header rate Hc)).
  rewrite <- app_assoc, <- replicate_add. do 2 f_equal.
  unfold written_size, kOpusHeaderStreamMapOffset, kOpusHeaderSize.
  subst k.
  destruct (2 <? channels header) eqn:E;
    [apply Z.ltb_lt in E | apply Z.ltb_ge in E];
    f_equal; f_equal; lia.
Qed.

(** ** Stores that succeed leave the other bytes alone *)

Lemma store_in_bounds (out : list Z) i v :
  0 <= i < Z.of_nat (length out) ->
  store out i v = Done (<[Z.to_nat i := v]> out).
Proof.
  intros H. unfold store.
  replace (0 <=? i) with true by (symmetry; apply Z.leb_le; lia).
  replace (i <? Z.of_nat (length out)) with true
    by (symmetry; apply Z.ltb_lt; lia).
  reflexivity.
Qed.

Lemma store_Done_inv (out : list Z) i v out' :
  store out i v = Done out' ->
  0 <= i < Z.of_nat (length out) /\ out' = <[Z.to_nat i := v]> out.
Proof.
  unfold store.
  destruct (0 <=? i) eqn:E0; [|discriminate].
  destruct (i <? Z.of_nat (length out)) eqn:E1; [|discriminate].
  cbn. intros [= <-]. apply Z.leb_le in E0. apply Z.ltb_lt in E1. auto.
Qed.

Lemma store_length (out : list Z) i v out' :
  store out i v = Done out' -> length out' = length out.
Proof.
  intros H. apply store_Done_inv in H as [_ ->]. apply length_insert.
Qed.

Lemma store_frame (out : list Z) i v out' (j : nat) :
  store out i v = Done out' -> Z.of_nat j <> i -> out' !! j = out !! j.
Proof.
  intros H Hne. apply store_Done_inv in H as [Hi ->].
  apply list_lookup_insert_ne. lia.
Qed.

Lemma memcpy_length src : forall (out : list Z) off out',
  memcpy out off src = Done out' -> length out' = length out.
Proof.
  induction src as [|b bs IH]; intros out off out'; cbn.
  - intros [= <-]. reflexivity.
  - destruct (store out off b) as [o|] eqn:E; [cbn|discriminate].
    intros H. rewrite (IH _ _ _ H). eapply store_length; eauto.
Qed.

Lemma memcpy_frame src : forall (out : list Z) off out' (j : nat),
  memcpy out off src = Done out' ->
  Z.of_nat j < off \/ off + Z.of_nat (length src) <= Z.of_nat j ->
  out' !! j = out !! j.
Proof.
  induction src as [|b bs IH]; intros out off out' j; cbn [memcpy].
  - intros [= <-]. reflexivity.
  - destruct (store out off b) as [o|] eqn:E; [cbn [run_bind]|discriminate].
    intros H Hj. cbn [length] in Hj.
    rewrite (IH _ _ _ _ H) by lia.
    eapply store_frame; eauto. lia.
Qed.

Lemma memcpy_in_bounds src : forall (out : list Z) off,
  0 <= off -> off + Z.of_nat (length src) <= Z.of_nat (length out) ->
  exists out', memcpy out off src = Done out'.
Proof.
  induction src as [|b bs IH]; intros out off H0 H1; cbn [memcpy].
  - eauto.
  - cbn [length] in H1. rewrite store_in_bounds by lia. cbn [run_bind].
    apply IH; [lia|]. rewrite length_insert. lia.
Qed.

Lemma write_stream_map_length n : forall i nch (out : list Z) out',
  write_stream_map n i nch out = Done out' -> length out' = length out.
Proof.
  induction n as [|n IH]; intros i nch out out'; cbn.
  - intros [= <-]. reflexivity.
  - destruct (kOpusChannelMap_at (nch - 1) i) as [v|]; [cbn|discriminate].
    destruct (store out _ v) as [o|] eqn:E; [cbn|discriminate].
    intros H. rewrite (IH _ _ _ _ H). eapply store_length; eauto.
Qed.

Lemma write_stream_map_frame n : forall i nch (out : list Z) out' (j : nat),
  write_stream_map n i nch out = Done out' ->
  Z.of_nat j < kOpusHeaderStreamMapOffset + i
  \/ kOpusHeaderStreamMapOffset + i + Z.of_nat n <= Z.of_nat j ->
  out' !! j = out !! j.
Proof.
  induction n as [|n IH]; intros i nch out out' j; cbn [write_stream_map].
  - intros [= <-]. reflexivity.
  - destruct (kOpusChannelMap_at (nch - 1) i) as [v|];
      [cbn [run_bind]|discriminate].
    destruct (store out _ v) as [o|] eqn:E; [cbn [run_bind]|discriminate].
    intros H Hj. rewrite (IH _ _ _ _ _ H) by lia.
    eapply store_frame; eauto. lia.
Qed.

(** ** Properties of the writer *)

(** What the writer returns for a supported channel count: one more than
    the bytes it laid out when there is a stream map, the bytes it laid out
    otherwise. *)
Lemma WriteOpusHeader_returned_size header rate (output : list Z) :
  1 <= channels header <= 8 ->
  kOpusHeaderStreamMapOffset + channels header <= Z.of_nat (length output) ->
  exists out',
    WriteOpusHeader header rate output
    = Done ((if 2 <? channels header then 22 + channels header else 19), out')
    /\ length out' = length output.
Proof.
  intros Hc Hlen. rewrite (WriteOpusHeader_layout _ _ _ Hc Hlen).
  eexists. split.
  - unfold returned_size, kOpusHeaderStreamMapOffset, kOpusHeaderSize.
    destruct (2 <? channels header); do 2 f_equal. lia.
  - rewrite length_app, length_replicate.
    pose proof (header_bytes_length header rate Hc) as HL.
    unfold written_size, kOpusHeaderStreamMapOffset, kOpusHeaderSize in *.
    destruct (2 <? channels header) eqn:E;
      [apply Z.ltb_lt in E | apply Z.ltb_ge in E]; lia.
Qed.

(** Above eight channels nothing stops the writer before the table: the
    first iteration of the stream-map loop reads row [channels - 1] of an
    eight-row table. *)
Lemma WriteOpusHeader_no_channel_guard header rate (output : list Z) :
  8 < channels header < 2 ^ 31 ->
  kOpusHeaderStreamMapOffset + channels header <= Z.of_nat (length output) ->
  WriteOpusHeader header rate output = Undefined OutOfBoundsRead.
Proof.
  intros Hc Hlen. rewrite WriteOpusHeader_unfold, memset_whole.
  unfold kOpusHeaderStreamMapOffset in *.
  replace (to_size_t (21 + channels header)) with (21 + channels header)
    by (unfold to_size_t; rewrite Z.mod_small; lia).
  replace (Z.of_nat (length output) <? 21 + channels header) with false
    by (symmetry; apply Z.ltb_ge; lia).
  assert (Z.of_nat (length (replicate (length output) 0)) = Z.of_nat (length output))
    as HL by (rewrite length_replicate; reflexivity).
  revert HL. generalize (replicate (length output) 0). intros out HL.
  unfold write_fields.
  unfold kOpusHeaderLabelOffset, kOpusHeaderVersionOffset,
    kOpusHeaderChannelsOffset, kOpusHeaderSkipSamplesOffset,
    kOpusHeaderSampleRateOffset, kOpusHeaderGainOffset,
    kOpusHeaderChannelMappingOffset, kOpusHeaderNumStreamsOffset,
    kOpusHeaderNumCoupledStreamsOffset.
  repeat
    (match goal with
     | |- run_bind (memcpy ?o ?off ?src) _ = _ =>
         let o' := fresh "o" in let E := fresh "E" in
         destruct (memcpy_in_bounds src o off) as [o' E];
         [lia | cbn; lia |];
         rewrite E; cbn [run_bind];
         apply memcpy_length in E
     | |- run_bind (store ?o ?i ?v) _ = _ =>
         rewrite (store_in_bounds o i v) by lia; cbn [run_bind];
         pose proof (length_insert o (Z.to_nat i) v)
     | |- (if 2 <? ?c then _ else _) = _ =>
         replace (2 <? c) with true by (symmetry; apply Z.ltb_lt; lia)
     end).
  destruct (Z.to_nat (channels header)) as [|n] eqn:En; [lia|].
  cbn [write_stream_map]. unfold kOpusChannelMap_at.
  replace (0 <=? channels header - 1) with true
    by (symmetry; apply Z.leb_le; lia).
  cbn [andb Z.leb Z.compare].
  rewrite (lookup_ge_None_2 kOpusChannelMap) by (cbn; lia).
  reflexivity.
Qed.

(** Closed side conditions on concrete headers and buffers. *)
Ltac by_evaluation := vm_compute; intuition (discriminate || reflexivity).

(** C1: the writer's return value on a header with a stream map.  The claim
    has it equal to [21 + channel_count], the bytes laid out; for three
    channels and a 24-byte buffer the writer lays out 24 bytes, 21 + 3, and
    returns 25, one more than the buffer it was given holds. *)
Theorem WriteOpusHeader_three_channels_returns_25 :
  exists out',
    WriteOpusHeader (header_of_channels 3) 48000 (replicate 24 0)
    = Done (25, out')
    /\ length out' = 24%nat
    /\ 25 <> kOpusHeaderStreamMapOffset + channels (header_of_channels 3).
Proof.
  destruct (WriteOpusHeader_returned_size (header_of_channels 3) 48000
              (replicate 24 0)) as [out' [E L]];
    [by_evaluation | by_evaluation |].
  exists out'. split; [exact E|]. split; [exact L|]. by_evaluation.
Qed.

(** With [channels] a signed [int], -21 makes [total_size] wrap to 0: an
    empty buffer passes the size check and the label is copied past its
    end. *)
Example WriteOpusHeader_negative_count_writes_past_buffer :
  WriteOpusHeader (header_of_channels (-21)) 48000 []
  = Undefined OutOfBoundsWrite.
Proof. reflexivity. Qed.

(** C2: a channel count outside 1..8 handed to the writer.  The claim has
    the call rejected; with nine channels and room for thirty bytes the
    writer passes its size check and reads [kOpusChannelMap[8][0]], past
    the end of the table, and with zero channels it returns 19 as for a
    mono header. *)
Theorem WriteOpusHeader_nine_channels_reads_past_table :
  WriteOpusHeader (header_of_channels 9) 48000 (replicate 30 0)
  = Undefined OutOfBoundsRead
  /\ kOpusChannelMap !! Z.to_nat (channels (header_of_channels 9) - 1) = None
  /\ exists out',
       WriteOpusHeader (header_of_channels 0) 48000 (replicate 21 0)
       = Done (19, out').
Proof.
  split; [|split].
  - apply WriteOpusHeader_no_channel_guard; by_evaluation.
  - reflexivity.
  - eexists. vm_compute. reflexivity.
Qed.

(** C7: for three to eight channels and enough room, the writer puts 1 in
    the mapping-family byte (offset 18), the channel count in the
    stream-count byte (offset 19), 0 in the coupled-count byte (offset 20),
    and the first [channels] entries of row [channels - 1] of
    [kOpusChannelMap] from offset 21 on; four channels give the map
    0,1,2,3 and six channels give 0,4,1,2,3,5. *)
Theorem WriteOpusHeader_explicit_mapping header rate (output : list Z) :
  3 <= channels header <= 8 ->
  kOpusHeaderStreamMapOffset + channels header <= Z.of_nat (length output) ->
  exists n out' row,
    WriteOpusHeader header rate output = Done (n, out')
    /\ out' !! Z.to_nat kOpusHeaderChannelMappingOffset = Some 1
    /\ out' !! Z.to_nat kOpusHeaderNumStreamsOffset = Some (channels header)
    /\ out' !! Z.to_nat kOpusHeaderNumCoupledStreamsOffset = Some 0
    /\ kOpusChannelMap !! Z.to_nat (channels header - 1) = Some row
    /\ take (Z.to_nat (channels header))
            (drop (Z.to_nat kOpusHeaderStreamMapOffset) out')
       = take (Z.to_nat (channels header)) row
    /\ (channels header = 4 ->
        take 4 (drop (Z.to_nat kOpusHeaderStreamMapOffset) out') = [0; 1; 2; 3])
    /\ (channels header = 6 ->
        take 6 (drop (Z.to_nat kOpusHeaderStreamMapOffset) out')
        = [0; 4; 1; 2; 3; 5]).
Proof.
  intros Hc Hlen.
  rewrite (WriteOpusHeader_layout header rate output) by lia.
  destruct header as [nch cm ns nc g s sm]. cbn [channels] in *.
  unfold header_bytes, fixed_region.
  cbn [channels skip_samples gain_db le_bytes].
  generalize (s mod 256) ((s / 256) mod 256) (g mod 256) ((g / 256) mod 256).
  generalize (rate mod 256) ((rate / 256) mod 256)
             ((rate / 256 / 256) mod 256) ((rate / 256 / 256 / 256) mod 256).
  intros r0 r1 r2 r3 s0 s1 g0 g1.
  assert (nch = 3 \/ nch = 4 \/ nch = 5 \/ nch = 6 \/ nch = 7 \/ nch = 8)
    as Hn by lia.
  clear Hc Hlen.
  repeat (destruct Hn as [Hn | Hn]); subst nch;
    (eexists _, _, _; split; [reflexivity|];
     repeat split; try reflexivity; intros; discriminate).
Qed.

Lemma WriteOpusHeader_explicit_mapping_witness :
  exists n out' row,
    WriteOpusHeader (header_of_channels 6) 44100 (replicate 27 170)
    = Done (n, out')
    /\ out' !! Z.to_nat kOpusHeaderChannelMappingOffset = Some 1
    /\ out' !! Z.to_nat kOpusHeaderNumStreamsOffset
       = Some (channels (header_of_channels 6))
    /\ out' !! Z.to_nat kOpusHeaderNumCoupledStreamsOffset = Some 0
    /\ kOpusChannelMap !! Z.to_nat (channels (header_of_channels 6) - 1)
       = Some row
    /\ take (Z.to_nat (channels (header_of_channels 6)))
            (drop (Z.to_nat kOpusHeaderStreamMapOffset) out')
       = take (Z.to_nat (channels (header_of_channels 6))) row
    /\ (channels (header_of_channels 6) = 4 ->
        take 4 (drop (Z.to_nat kOpusHeaderStreamMapOffset) out') = [0; 1; 2; 3])
    /\ (channels (header_of_channels 6) = 6 ->
        take 6 (drop (Z.to_nat kOpusHeaderStreamMapOffset) out')
        = [0; 4; 1; 2; 3; 5]).
Proof.
  apply (WriteOpusHeader_explicit_mapping (header_of_channels 6) 44100
           (replicate 27 170)); vm_compute; intuition discriminate.
Defined.

(** C8: with one to eight channels, a buffer of exactly [21 + channels]
    bytes is accepted and the writer returns a byte count; a buffer of
    [20 + channels] bytes is refused with -1 and comes back as it was,
    byte for byte. *)
Theorem WriteOpusHeader_capacity_boundary header rate (output : list Z) :
  1 <= channels header <= 8 ->
  (Z.of_nat (length output) = 21 + channels header ->
   exists n out',
     WriteOpusHeader header rate output = Done (n, out')
     /\ 0 < n /\ length out' = length output)
  /\ (Z.of_nat (length output) = 20 + channels header ->
      WriteOpusHeader header rate output = Done (-1, output)).
Proof.
  intros Hc. split; intros Hlen.
  - destruct (WriteOpusHeader_returned_size header rate output Hc)
      as [out' [E L]]; [unfold kOpusHeaderStreamMapOffset; lia|].
    eexists _, out'. split; [exact E|]. split; [|exact L].
    destruct (2 <? channels header); lia.
  - rewrite WriteOpusHeader_unfold. unfold kOpusHeaderStreamMapOffset.
    replace (to_size_t (21 + channels header)) with (21 + channels header)
      by (unfold to_size_t; rewrite Z.mod_small; lia).
    replace (Z.of_nat (length output) <? 21 + channels header) with true
      by (symmetry; apply Z.ltb_lt; lia).
    reflexivity.
Qed.

Lemma WriteOpusHeader_capacity_boundary_witness :
  (1 <= channels (header_of_channels 2) <= 8)
  /\ (exists n out',
        WriteOpusHeader (header_of_channels 2) 48000 (replicate 23 7)
        = Done (n, out')
        /\ 0 < n /\ length out' = length (replicate 23 7))
  /\ WriteOpusHeader (header_of_channels 2) 48000 (replicate 22 7)
     = Done (-1, replicate 22 7).
Proof.
  split; [vm_compute; intuition discriminate|].
  split.
  - apply (WriteOpusHeader_capacity_boundary (header_of_channels 2) 48000
             (replicate 23 7)); [vm_compute; intuition discriminate|].
    reflexivity.
  - apply (WriteOpusHeader_capacity_boundary (header_of_channels 2) 48000
             (replicate 22 7)); [vm_compute; intuition discriminate|].
    reflexivity.
Defined.

Ltac unfold_offsets_in H :=
  unfold kOpusHeaderLabelOffset, kOpusHeaderVersionOffset,
    kOpusHeaderChannelsOffset, kOpusHeaderSkipSamplesOffset,
    kOpusHeaderSampleRateOffset, kOpusHeaderGainOffset,
    kOpusHeaderChannelMappingOffset, kOpusHeaderNumStreamsOffset,
    kOpusHeaderNumCoupledStreamsOffset in H.

(** Peel the successful steps off a run of the writer. *)
Ltac peel H :=
  repeat
    match type of H with
    | run_bind (memcpy ?o ?off ?src) _ = _ =>
        let o' := fresh "o" in let E := fresh "E" in
        destruct (memcpy o off src) as [o'|] eqn:E;
        [cbn [run_bind] in H | discriminate H]
    | run_bind (store ?o ?i ?v) _ = _ =>
        let o' := fresh "o" in let E := fresh "E" in
        destruct (store o i v) as [o'|] eqn:E;
        [cbn [run_bind] in H | discriminate H]
    | run_bind (write_stream_map ?n ?i ?c ?o) _ = _ =>
        let o' := fresh "o" in let E := fresh "E" in
        destruct (write_stream_map n i c o) as [o'|] eqn:E;
        [cbn [run_bind] in H | discriminate H]
    end.

(** Walk a lookup back through the steps that did not touch it. *)
Ltac frame_back j :=
  repeat
    match goal with
    | E : store ?o ?i ?v = Done ?o' |- ?o' !! j = _ =>
        rewrite (store_frame o i v o' j E) by lia
    | E : memcpy ?o ?off ?src = Done ?o' |- ?o' !! j = _ =>
        rewrite (memcpy_frame src o off o' j E) by (cbn [length le_bytes]; lia)
    | E : write_stream_map ?n ?i ?c ?o = Done ?o' |- ?o' !! j = _ =>
        rewrite (write_stream_map_frame n i c o o' j E)
          by (unfold kOpusHeaderStreamMapOffset; lia)
    end.

Ltac length_back :=
  repeat
    match goal with
    | E : store ?o ?i ?v = Done ?o' |- length ?o' = _ =>
        rewrite (store_length o i v o' E)
    | E : memcpy ?o ?off ?src = Done ?o' |- length ?o' = _ =>
        rewrite (memcpy_length src o off o' E)
    | E : write_stream_map ?n ?i ?c ?o = Done ?o' |- length ?o' = _ =>
        rewrite (write_stream_map_length n i c o o' E)
    end.

(** C9: a call that does not return -1 has cleared all of the caller's
    buffer before laying out the header: the outcome is the one on an
    all-zero buffer of the same length, the length is kept, and every byte
    from the end of the laid-out header on (offset [21 + channels] above
    two channels, offset 19 otherwise, so offsets 19 and 20 included) up to
    the end of the buffer is 0. *)
Theorem WriteOpusHeader_zero_fill header rate (output : list Z) n out' :
  WriteOpusHeader header rate output = Done (n, out') ->
  n <> -1 ->
  WriteOpusHeader header rate (replicate (length output) 0) = Done (n, out')
  /\ length out' = length output
  /\ forall j : nat,
       written_size header <= Z.of_nat j ->
       (j < length output)%nat ->
       out' !! j = Some 0.
Proof.
  intros H Hn.
  assert (write_fields header rate (replicate (length output) 0)
          = Done (n, out')) as HF.
  { rewrite WriteOpusHeader_unfold, memset_whole in H.
    destruct (Z.of_nat (length output) <? _); [|exact H].
    injection H as <- _. contradiction. }
  split.
  { rewrite WriteOpusHeader_unfold, memset_whole, length_replicate.
    rewrite WriteOpusHeader_unfold, memset_whole in H.
    destruct (Z.of_nat (length output) <? _); [|exact HF].
    injection H as <- _. contradiction. }
  clear H. unfold write_fields in HF. unfold_offsets_in HF.
  rewrite OpusHead_label_bytes in HF. peel HF.
  unfold written_size, kOpusHeaderStreamMapOffset, kOpusHeaderSize.
  destruct (2 <? channels header) eqn:Hch;
    [apply Z.ltb_lt in Hch | apply Z.ltb_ge in Hch];
    peel HF; injection HF as <- <-.
  - split.
    + length_back. apply length_replicate.
    + intros j Hj Hlt. frame_back j. apply lookup_replicate_2. exact Hlt.
  - split.
    + length_back. apply length_replicate.
    + intros j Hj Hlt. frame_back j. apply lookup_replicate_2. exact Hlt.
Qed.

Lemma WriteOpusHeader_zero_fill_witness :
  WriteOpusHeader (header_of_channels 1) 8000 (replicate 24 255)
  = Done (19, [79; 112; 117; 115; 72; 101; 97; 100; 1; 1; 0; 0;
               64; 31; 0; 0; 0; 0; 0; 0; 0; 0; 0; 0])
  /\ 19 <> -1
  /\ forall j : nat,
       written_size (header_of_channels 1) <= Z.of_nat j ->
       (j < length (replicate 24 255))%nat ->
       [79; 112; 117; 115; 72; 101; 97; 100; 1; 1; 0; 0;
        64; 31; 0; 0; 0; 0; 0; 0; 0; 0; 0; 0] !! j = Some 0.
Proof.
  split; [vm_compute; reflexivity|].
  split; [discriminate|].
  apply (WriteOpusHeader_zero_fill (header_of_channels 1) 8000
           (replicate 24 255) 19).
  - vm_compute. reflexivity.
  - discriminate.
Defined.

(** ** Properties of the parser *)

Ltac ltb_is b :=
  match goal with
  | |- context [?x <? ?y] =>
      replace (x <? y) with b
        by (symmetry; first [apply Z.ltb_lt; lia | apply Z.ltb_ge; lia])
  end.

(** The parser past its first two checks. *)
Lemma ParseOpusHeader_accepted_count data header :
  kOpusHeaderSize <= data_size data ->
  1 <= byte_at data kOpusHeaderChannelsOffset <= kMaxChannels ->
  ParseOpusHeader data header =
  let nch := byte_at data kOpusHeaderChannelsOffset in
  let h :=
    set_channel_mapping
      (set_gain_db
         (set_skip_samples (set_channels header nch)
            (ReadLE16 data kOpusHeaderSkipSamplesOffset))
         (to_int16 (ReadLE16 data kOpusHeaderGainOffset)))
      (byte_at data kOpusHeaderChannelMappingOffset) in
  if byte_at data kOpusHeaderChannelMappingOffset =? 0 then
    if 2 <? nch then mkParse false h (Some LogMissingStreamMap)
    else
      mkParse true
        (set_stream_map
           (set_stream_map
              (set_num_coupled (set_num_streams h 1)
                 (if 1 <? nch then 1 else 0)) 0 0) 1 1) None
  else if data_size data <? kOpusHeaderStreamMapOffset + nch then
    mkParse false h (Some (LogInsufficientStreamMap nch))
  else
    let h' :=
      set_num_coupled
        (set_num_streams h (byte_at data kOpusHeaderNumStreamsOffset))
        (byte_at data kOpusHeaderNumCoupledStreamsOffset) in
    if byte_at data kOpusHeaderNumStreamsOffset
       + byte_at data kOpusHeaderNumCoupledStreamsOffset =? nch
    then mkParse true (copy_stream_map (Z.to_nat nch) 0 data h') None
    else mkParse false h' (Some LogInconsistentMapping).
Proof.
  intros Hlen Hch. unfold ParseOpusHeader.
  unfold kMaxChannels, kMaxChannelsWithDefaultLayout in *.
  cbn [channels channel_mapping num_streams num_coupled
       set_channels set_skip_samples set_gain_db set_channel_mapping
       set_num_streams set_num_coupled].
  ltb_is false. ltb_is false. ltb_is false. cbn [orb].
  replace (to_size_t (kOpusHeaderStreamMapOffset
                      + byte_at data kOpusHeaderChannelsOffset))
    with (kOpusHeaderStreamMapOffset + byte_at data kOpusHeaderChannelsOffset)
    by (unfold to_size_t, kOpusHeaderStreamMapOffset;
        rewrite Z.mod_small; lia).
  cbv zeta.
  destruct (byte_at data kOpusHeaderChannelMappingOffset =? 0); [reflexivity|].
  destruct (data_size data <? _); [reflexivity|].
  destruct (_ + _ =? _); reflexivity.
Qed.

Lemma copy_stream_map_fields n data : forall i h,
  let h' := copy_stream_map n i data h in
  channels h' = channels h /\ channel_mapping h' = channel_mapping h
  /\ num_streams h' = num_streams h /\ num_coupled h' = num_coupled h
  /\ gain_db h' = gain_db h /\ skip_samples h' = skip_samples h.
Proof.
  induction n as [|n IH]; intros i h; cbn [copy_stream_map].
  - repeat split.
  - apply (IH (i + 1) (set_stream_map h i _)).
Qed.

Ltac copy_fields :=
  match goal with
  | |- context [copy_stream_map ?n ?i ?d ?h] =>
      let Hf := fresh "Hf" in
      pose proof (copy_stream_map_fields n d i h) as Hf; cbv zeta in Hf;
      let Ec := fresh in let Em := fresh in let Es := fresh in
      let Eo := fresh in let Eg := fresh in let Ek := fresh in
      destruct Hf as (Ec & Em & Es & Eo & Eg & Ek);
      rewrite ?Ec, ?Em, ?Es, ?Eo, ?Eg, ?Ek
  end.

Lemma copy_stream_map_lookup n data : forall i h (j : nat),
  0 <= i ->
  stream_map (copy_stream_map n i data h) !! j =
  if decide (i <= Z.of_nat j < i + Z.of_nat n
             /\ (j < length (stream_map h))%nat)
  then Some (byte_at data (kOpusHeaderStreamMapOffset + Z.of_nat j))
  else stream_map h !! j.
Proof.
  induction n as [|n IH]; intros i h j Hi; cbn [copy_stream_map].
  - case_decide; [lia|reflexivity].
  - rewrite IH by lia. cbn [set_stream_map stream_map].
    rewrite length_insert, list_lookup_insert.
    repeat case_decide; try lia; try reflexivity.
    replace (Z.of_nat j) with i by lia. reflexivity.
Qed.

(** The loop copies [n] bytes from offset 21 of the buffer to the front of
    the stream map. *)
Lemma copy_stream_map_spec n data h :
  (n <= length (stream_map h))%nat ->
  (Z.to_nat kOpusHeaderStreamMapOffset + n <= length data)%nat ->
  stream_map (copy_stream_map n 0 data h)
  = take n (drop (Z.to_nat kOpusHeaderStreamMapOffset) data)
    ++ drop n (stream_map h).
Proof.
  intros Hn Hd. apply list_eq. intros j.
  rewrite copy_stream_map_lookup by lia.
  unfold kOpusHeaderStreamMapOffset in *.
  case_decide as Hj.
  - rewrite lookup_app_l by (rewrite length_take, length_drop; lia).
    rewrite lookup_take_lt by lia. rewrite lookup_drop.
    unfold byte_at.
    replace (Z.to_nat (21 + Z.of_nat j)) with (Z.to_nat 21 + j)%nat by lia.
    destruct (lookup_lt_is_Some_2 data (Z.to_nat 21 + j)) as [x ->]; [lia|].
    reflexivity.
  - destruct (decide (j < n)%nat) as [Hlt|Hge]; [lia|].
    rewrite lookup_app_r by (rewrite length_take, length_drop; lia).
    rewrite length_take, length_drop, lookup_drop.
    f_equal. lia.
Qed.

(** *** The little-endian reader *)

Lemma le16_join (z : Z) :
  Z.lor (to_uint16 (z mod 256)) (Z.shiftl ((z / 256) mod 256) 8)
  = z mod 2 ^ 16.
Proof.
  unfold to_uint16.
  assert (0 <= z mod 256 < 256) by (apply Z.mod_pos_bound; lia).
  assert (0 <= (z / 256) mod 256 < 256) by (apply Z.mod_pos_bound; lia).
  rewrite (Z.mod_small (z mod 256)) by lia.
  rewrite Z.shiftl_mul_pow2 by lia.
  assert (Z.land (z mod 256) ((z / 256) mod 256 * 2 ^ 8) = 0) as Hdisj.
  { apply Z.bits_inj'. intros n Hn. rewrite Z.land_spec, Z.bits_0.
    destruct (Z.ltb_spec n 8).
    - rewrite Z.mul_pow2_bits_low by lia. apply Bool.andb_false_r.
    - change 256 with (2 ^ 8) at 1. rewrite Z.mod_pow2_bits_high by lia.
      reflexivity. }
  rewrite <- Z.lxor_lor, <- Z.add_nocarry_lxor by exact Hdisj.
  change (2 ^ 16) with (256 * 256). rewrite Z.rem_mul_r by lia.
  change (2 ^ 8) with 256. lia.
Qed.

Lemma to_int16_of_wrapped (g : Z) :
  - 2 ^ 15 <= g < 2 ^ 15 -> to_int16 (to_uint16 (g mod 2 ^ 16)) = g.
Proof.
  intros Hg. unfold to_int16, to_uint16. rewrite !Z.mod_mod by lia.
  destruct (Z.ltb_spec g 0).
  - replace (g mod 2 ^ 16) with (g + 2 ^ 16)
      by (apply Z.mod_unique with (q := -1); lia).
    destruct (Z.ltb_spec (g + 2 ^ 16) (2 ^ 15)); lia.
  - rewrite Z.mod_small by lia.
    destruct (Z.ltb_spec g (2 ^ 15)); lia.
Qed.

Lemma ReadLE16_in_bounds data off :
  0 <= off -> off + 1 < data_size data -> off + 1 < 2 ^ 32 ->
  ReadLE16_starved data off = false
  /\ ReadLE16 data off
     = to_uint16 (Z.lor (to_uint16 (byte_at data off))
                        (Z.shiftl (byte_at data (off + 1)) 8)).
Proof.
  intros H0 H1 H2.
  assert (ReadLE16_starved data off = false) as E.
  { unfold ReadLE16_starved, to_uint32. rewrite Z.mod_small by lia.
    apply Z.leb_gt. lia. }
  split; [exact E|]. unfold ReadLE16. rewrite E.
  unfold to_uint32. rewrite (Z.mod_small (off + 1)) by lia. reflexivity.
Qed.

(** A buffer that starves either field is shorter than the fixed region,
    and the parser turns it away before reading anything. *)
Lemma starved_buffer_is_too_short data header :
  ReadLE16_starved data kOpusHeaderSkipSamplesOffset = true
  \/ ReadLE16_starved data kOpusHeaderGainOffset = true ->
  data_size data < kOpusHeaderSize
  /\ ParseOpusHeader data header
     = mkParse false header (Some LogHeaderTooSmall).
Proof.
  unfold ReadLE16_starved, kOpusHeaderSkipSamplesOffset, kOpusHeaderGainOffset,
    kOpusHeaderSize, to_uint32.
  rewrite !Z.mod_small by lia. rewrite !Z.leb_le. intros H.
  split; [lia|]. unfold ParseOpusHeader, kOpusHeaderSize.
  ltb_is true. reflexivity.
Qed.

(** The claim of C3 read on the code: no buffer passes the length gate
    with a starved pre-skip or gain field, whatever the parse returns. *)
Lemma no_starved_field_behind_the_gate :
  ~ exists data header,
      kOpusHeaderSize <= data_size data
      /\ (ReadLE16_starved data kOpusHeaderSkipSamplesOffset = true
          \/ ReadLE16_starved data kOpusHeaderGainOffset = true)
      /\ parse_ret (ParseOpusHeader data header) = true.
Proof.
  intros (data & header & Hgate & Hstarved & _).
  destruct (starved_buffer_is_too_short data header Hstarved) as [Hshort _].
  lia.
Qed.

(** C3 (amended): on every buffer that passes the 19-byte gate neither the
    pre-skip nor the gain field is starved; the reader takes both bytes
    of each, and when the channel count is accepted the header receives
    the two-byte little-endian pre-skip and the sign-reinterpreted gain. *)
Theorem ReadLE16_reads_both_bytes_behind_the_gate data header :
  kOpusHeaderSize <= data_size data ->
  ReadLE16_starved data kOpusHeaderSkipSamplesOffset = false
  /\ ReadLE16_starved data kOpusHeaderGainOffset = false
  /\ ReadLE16 data kOpusHeaderSkipSamplesOffset
     = to_uint16 (Z.lor (to_uint16 (byte_at data 10))
                        (Z.shiftl (byte_at data 11) 8))
  /\ ReadLE16 data kOpusHeaderGainOffset
     = to_uint16 (Z.lor (to_uint16 (byte_at data 16))
                        (Z.shiftl (byte_at data 17) 8))
  /\ (1 <= byte_at data kOpusHeaderChannelsOffset <= kMaxChannels ->
      skip_samples (parse_hdr (ParseOpusHeader data header))
      = ReadLE16 data kOpusHeaderSkipSamplesOffset
      /\ gain_db (parse_hdr (ParseOpusHeader data header))
         = to_int16 (ReadLE16 data kOpusHeaderGainOffset)).
Proof.
  intros Hgate.
  destruct (ReadLE16_in_bounds data kOpusHeaderSkipSamplesOffset)
    as [S1 S2]; [by_evaluation | unfold kOpusHeaderSize,
      kOpusHeaderSkipSamplesOffset in *; lia | by_evaluation |].
  destruct (ReadLE16_in_bounds data kOpusHeaderGainOffset)
    as [G1 G2]; [by_evaluation | unfold kOpusHeaderSize,
      kOpusHeaderGainOffset in *; lia | by_evaluation |].
  repeat split; try assumption.
  - rewrite (ParseOpusHeader_accepted_count data header) by assumption.
    cbv zeta.
    repeat match goal with
           | |- context [if ?b then _ else _] => destruct b
           end; cbn [parse_hdr]; try reflexivity.
    copy_fields. reflexivity.
  - rewrite (ParseOpusHeader_accepted_count data header) by assumption.
    cbv zeta.
    repeat match goal with
           | |- context [if ?b then _ else _] => destruct b
           end; cbn [parse_hdr]; try reflexivity.
    copy_fields. reflexivity.
Qed.

Lemma ReadLE16_reads_both_bytes_behind_the_gate_witness :
  kOpusHeaderSize <= data_size (replicate 10 1 ++ [44; 1] ++ replicate 7 0)
  /\ ReadLE16 (replicate 10 1 ++ [44; 1] ++ replicate 7 0)
       kOpusHeaderSkipSamplesOffset = 300.
Proof.
  split; [by_evaluation|].
  destruct (ReadLE16_reads_both_bytes_behind_the_gate
              (replicate 10 1 ++ [44; 1] ++ replicate 7 0) header0)
    as (_ & _ & E & _); [by_evaluation|].
  rewrite E. reflexivity.
Defined.

(** *** Rejections *)

(** The claim of C4 read on the code: five buffers rejected for the five
    different causes all hand the caller the same value, [false]; the
    first two even leave the caller's header in the same state. *)
Lemma ParseOpusHeader_failures_share_one_value :
  (spec_parse_error too_short_input = Some TooShort
   /\ spec_parse_error bad_count_input = Some InvalidChannelCount
   /\ spec_parse_error missing_map_input = Some MissingStreamMap
   /\ spec_parse_error truncated_map_input = Some TruncatedStreamMap
   /\ spec_parse_error inconsistent_map_input = Some InconsistentStreamMap)
  /\ (parse_ret (ParseOpusHeader too_short_input header0) = false
      /\ parse_ret (ParseOpusHeader bad_count_input header0) = false
      /\ parse_ret (ParseOpusHeader missing_map_input header0) = false
      /\ parse_ret (ParseOpusHeader truncated_map_input header0) = false
      /\ parse_ret (ParseOpusHeader inconsistent_map_input header0) = false)
  /\ parse_hdr (ParseOpusHeader too_short_input header0)
     = parse_hdr (ParseOpusHeader bad_count_input header0).
Proof. vm_compute. repeat split. Qed.

(** The rejecting branch of each cause: a buffer with a cause of rejection
    makes the parser return [false] from the branch that logs the line of
    that cause; a buffer with none is accepted with [true] and nothing
    logged. *)
Lemma ParseOpusHeader_branch_of_cause data header :
  match spec_parse_error data with
  | Some e =>
      parse_ret (ParseOpusHeader data header) = false
      /\ error_of_log <$> parse_log (ParseOpusHeader data header) = Some e
  | None =>
      parse_ret (ParseOpusHeader data header) = true
      /\ parse_log (ParseOpusHeader data header) = None
  end.
Proof.
  unfold spec_parse_error.
  destruct (Z.ltb_spec (data_size data) 19) as [Hs|Hs].
  { unfold ParseOpusHeader, kOpusHeaderSize. ltb_is true. split; reflexivity. }
  destruct (Z.leb_spec 1 (byte_at data 9)) as [H1|H1];
    [destruct (Z.leb_spec (byte_at data 9) 8) as [H8|H8]|]; cbn [andb negb].
  - rewrite (ParseOpusHeader_accepted_count data header)
      by (unfold kOpusHeaderSize, kOpusHeaderChannelsOffset, kMaxChannels; lia).
    cbv zeta.
    unfold kOpusHeaderChannelMappingOffset, kOpusHeaderChannelsOffset,
      kOpusHeaderStreamMapOffset, kOpusHeaderNumStreamsOffset,
      kOpusHeaderNumCoupledStreamsOffset.
    change (19 + 2 + byte_at data 9) with (21 + byte_at data 9).
    destruct (byte_at data 18 =? 0).
    + destruct (2 <? byte_at data 9); split; reflexivity.
    + destruct (data_size data <? 21 + byte_at data 9); [split; reflexivity|].
      destruct (byte_at data 19 + byte_at data 20 =? byte_at data 9);
        split; reflexivity.
  - unfold ParseOpusHeader, kOpusHeaderSize, kMaxChannels,
      kOpusHeaderChannelsOffset.
    cbn [channels set_channels]. do 2 ltb_is false. ltb_is true.
    split; reflexivity.
  - unfold ParseOpusHeader, kOpusHeaderSize, kMaxChannels,
      kOpusHeaderChannelsOffset.
    cbn [channels set_channels]. ltb_is false. ltb_is true.
    split; reflexivity.
Qed.

(** C4 (amended): whichever of the five causes makes the parser reject a
    buffer, the value it returns to the caller is [false], the same for
    every cause: two buffers rejected for different causes yield the same
    returned value, so the returned value does not tell the causes apart.
    A buffer with none of the five causes is accepted with [true]. *)
Theorem ParseOpusHeader_reports_false_for_every_cause data header :
  match spec_parse_error data with
  | Some _ => parse_ret (ParseOpusHeader data header) = false
  | None => parse_ret (ParseOpusHeader data header) = true
  end
  /\ forall data' header' e e',
       spec_parse_error data = Some e ->
       spec_parse_error data' = Some e' ->
       parse_ret (ParseOpusHeader data header)
       = parse_ret (ParseOpusHeader data' header').
Proof.
  split.
  - pose proof (ParseOpusHeader_branch_of_cause data header) as H.
    destruct (spec_parse_error data); destruct H as [H _]; exact H.
  - intros data' header' e e' He He'.
    pose proof (ParseOpusHeader_branch_of_cause data header) as H.
    pose proof (ParseOpusHeader_branch_of_cause data' header') as H'.
    rewrite He in H. rewrite He' in H'.
    destruct H as [-> _]. destruct H' as [-> _]. reflexivity.
Qed.

Lemma ParseOpusHeader_reports_false_for_every_cause_witness :
  spec_parse_error too_short_input = Some TooShort
  /\ spec_parse_error inconsistent_map_input = Some InconsistentStreamMap
  /\ parse_ret (ParseOpusHeader too_short_input header0)
     = parse_ret (ParseOpusHeader inconsistent_map_input stereo_header).
Proof.
  split; [reflexivity|]. split; [reflexivity|].
  destruct (ParseOpusHeader_reports_false_for_every_cause
              too_short_input header0) as [_ H].
  apply (H inconsistent_map_input stereo_header TooShort
           InconsistentStreamMap); reflexivity.
Defined.

Ltac eqb_is b :=
  match goal with
  | |- context [?x =? ?y] =>
      replace (x =? y) with b
        by (symmetry; first [apply Z.eqb_eq; lia | apply Z.eqb_neq; lia])
  end.

(** C6: the parser on the mapping-family byte (offset 18) of a buffer of at
    least 19 bytes whose channel byte is in 1..8.  Family 0 above two
    channels: rejected, missing stream map.  Family 0 with one or two
    channels: accepted with one stream, a coupled stream exactly for
    stereo, and 0, 1 in the first two stream-map entries.  Nonzero family:
    rejected as truncated below [21 + channels] bytes; else rejected as
    inconsistent when bytes 19 and 20 do not add up to the channel count;
    else accepted, the [channels] bytes from offset 21 copied to the front
    of the stream map and the rest of the map left as it was. *)
Theorem ParseOpusHeader_mapping_family data header :
  kOpusHeaderSize <= data_size data ->
  1 <= byte_at data kOpusHeaderChannelsOffset <= kMaxChannels ->
  length (stream_map header) = Z.to_nat kMaxChannels ->
  let nch := byte_at data kOpusHeaderChannelsOffset in
  let family := byte_at data kOpusHeaderChannelMappingOffset in
  let r := ParseOpusHeader data header in
  channels (parse_hdr r) = nch
  /\ channel_mapping (parse_hdr r) = family
  /\ (family = 0 -> 2 < nch ->
      parse_ret r = false
      /\ error_of_log <$> parse_log r = Some MissingStreamMap)
  /\ (family = 0 -> nch <= 2 ->
      parse_ret r = true
      /\ num_streams (parse_hdr r) = 1
      /\ num_coupled (parse_hdr r) = (if 1 <? nch then 1 else 0)
      /\ take 2 (stream_map (parse_hdr r)) = [0; 1])
  /\ (family <> 0 -> data_size data < 21 + nch ->
      parse_ret r = false
      /\ error_of_log <$> parse_log r = Some TruncatedStreamMap)
  /\ (family <> 0 -> 21 + nch <= data_size data ->
      byte_at data 19 + byte_at data 20 <> nch ->
      parse_ret r = false
      /\ error_of_log <$> parse_log r = Some InconsistentStreamMap)
  /\ (family <> 0 -> 21 + nch <= data_size data ->
      byte_at data 19 + byte_at data 20 = nch ->
      parse_ret r = true
      /\ num_streams (parse_hdr r) = byte_at data 19
      /\ num_coupled (parse_hdr r) = byte_at data 20
      /\ take (Z.to_nat nch) (stream_map (parse_hdr r))
         = take (Z.to_nat nch) (drop 21 data)
      /\ drop (Z.to_nat nch) (stream_map (parse_hdr r))
         = drop (Z.to_nat nch) (stream_map header)).
Proof.
  intros Hlen Hch Hsm nch family r. subst r.
  rewrite (ParseOpusHeader_accepted_count data header Hlen Hch).
  cbv zeta. fold nch. fold family.
  unfold kMaxChannels, kOpusHeaderSize, kOpusHeaderStreamMapOffset,
    kOpusHeaderNumStreamsOffset, kOpusHeaderNumCoupledStreamsOffset,
    data_size in *.
  fold nch in Hch.
  split; [|split].
  - repeat match goal with
           | |- context [if ?b then _ else _] => destruct b
           end; cbn [parse_hdr]; try reflexivity.
    copy_fields. reflexivity.
  - repeat match goal with
           | |- context [if ?b then _ else _] => destruct b
           end; cbn [parse_hdr]; try reflexivity.
    copy_fields. reflexivity.
  - repeat split; intros.
    + eqb_is true. ltb_is true. reflexivity.
    + eqb_is true. ltb_is true. reflexivity.
    + eqb_is true. ltb_is false. reflexivity.
    + eqb_is true. ltb_is false. reflexivity.
    + eqb_is true. ltb_is false. cbn [parse_hdr num_coupled set_stream_map
        set_num_coupled]. reflexivity.
    + eqb_is true. ltb_is false.
      cbn [parse_hdr stream_map set_stream_map set_num_coupled
           set_num_streams set_channel_mapping set_gain_db set_skip_samples
           set_channels].
      destruct (stream_map header) as [|a [|b sm]];
        [discriminate Hsm | discriminate Hsm | reflexivity].
    + eqb_is false. ltb_is true. reflexivity.
    + eqb_is false. ltb_is true. reflexivity.
    + eqb_is false. ltb_is false. eqb_is false. reflexivity.
    + eqb_is false. ltb_is false. eqb_is false. reflexivity.
    + eqb_is false. ltb_is false. eqb_is true. reflexivity.
    + eqb_is false. ltb_is false. eqb_is true. cbn [parse_hdr].
      copy_fields. reflexivity.
    + eqb_is false. ltb_is false. eqb_is true. cbn [parse_hdr].
      copy_fields. reflexivity.
    + eqb_is false. ltb_is false. eqb_is true. cbn [parse_hdr].
      rewrite copy_stream_map_spec
        by (cbn [stream_map set_num_coupled set_num_streams
                 set_channel_mapping set_gain_db set_skip_samples
                 set_channels];
            unfold kOpusHeaderStreamMapOffset; lia).
      change (Z.to_nat kOpusHeaderStreamMapOffset) with 21%nat.
      rewrite take_app_le by (rewrite length_take, length_drop; lia).
      rewrite take_take. f_equal. lia.
    + eqb_is false. ltb_is false. eqb_is true. cbn [parse_hdr].
      rewrite copy_stream_map_spec
        by (cbn [stream_map set_num_coupled set_num_streams
                 set_channel_mapping set_gain_db set_skip_samples
                 set_channels];
            unfold kOpusHeaderStreamMapOffset; lia).
      change (Z.to_nat kOpusHeaderStreamMapOffset) with 21%nat.
      rewrite drop_app_length'
        by (rewrite length_take, length_drop; lia).
      reflexivity.
Qed.

Lemma ParseOpusHeader_mapping_family_witness :
  kOpusHeaderSize <= data_size three_channel_input
  /\ 1 <= byte_at three_channel_input kOpusHeaderChannelsOffset <= kMaxChannels
  /\ length (stream_map header0) = Z.to_nat kMaxChannels
  /\ parse_ret (ParseOpusHeader three_channel_input header0) = true
  /\ take 3 (stream_map (parse_hdr (ParseOpusHeader three_channel_input header0)))
     = [0; 2; 1].
Proof.
  split; [by_evaluation|]. split; [by_evaluation|]. split; [reflexivity|].
  destruct (ParseOpusHeader_mapping_family three_channel_input header0)
    as (_ & _ & _ & _ & _ & _ & H);
    [by_evaluation | by_evaluation | reflexivity |].
  destruct H as (Hret & _ & _ & Hmap & _);
    [by_evaluation | by_evaluation | reflexivity |].
  split; [exact Hret | exact Hmap].
Defined.

(** C10: on a buffer of at least 19 bytes the parser stores byte 9 in the
    caller's header before it checks it.  The header holds that byte after
    the call whether the parse succeeds or not; when the byte is outside
    1..8 the call fails and the caller's header is the old one with the bad
    count in it; when a later check fails, the pre-skip, gain and mapping
    family (and, for an inconsistent stream map, the two stream counts) have
    been overwritten as well. *)
Theorem ParseOpusHeader_not_atomic data header :
  kOpusHeaderSize <= data_size data ->
  let nch := byte_at data kOpusHeaderChannelsOffset in
  let r := ParseOpusHeader data header in
  channels (parse_hdr r) = nch
  /\ (~ 1 <= nch <= kMaxChannels ->
      parse_ret r = false
      /\ parse_hdr r = set_channels header nch
      /\ (channels header <> nch -> parse_hdr r <> header))
  /\ (1 <= nch <= kMaxChannels ->
      parse_ret r = false ->
      skip_samples (parse_hdr r) = ReadLE16 data kOpusHeaderSkipSamplesOffset
      /\ gain_db (parse_hdr r)
         = to_int16 (ReadLE16 data kOpusHeaderGainOffset)
      /\ channel_mapping (parse_hdr r)
         = byte_at data kOpusHeaderChannelMappingOffset)
  /\ (1 <= nch <= kMaxChannels ->
      error_of_log <$> parse_log r = Some InconsistentStreamMap ->
      parse_ret r = false
      /\ num_streams (parse_hdr r) = byte_at data kOpusHeaderNumStreamsOffset
      /\ num_coupled (parse_hdr r)
         = byte_at data kOpusHeaderNumCoupledStreamsOffset).
Proof.
  intros Hlen nch r.
  assert (~ 1 <= nch <= kMaxChannels ->
          r = mkParse false (set_channels header nch)
                (Some (LogBadChannelCount nch))) as Hbad.
  { intros Hn. subst r. unfold ParseOpusHeader.
    unfold kMaxChannels in *. cbn [channels set_channels]. fold nch.
    ltb_is false.
    destruct (Z.ltb_spec nch 1); [reflexivity|].
    destruct (Z.ltb_spec 8 nch); [reflexivity|]. lia. }
  assert (1 <= nch <= kMaxChannels ->
          r = _) as Hgood
    by (intros Hn; exact (ParseOpusHeader_accepted_count data header Hlen Hn)).
  cbv zeta in Hgood. fold nch in Hgood.
  split; [|split; [|split]].
  - destruct (decide (1 <= nch <= kMaxChannels)) as [Hn|Hn].
    + rewrite (Hgood Hn).
      repeat match goal with
             | |- context [if ?b then _ else _] => destruct b
             end; cbn [parse_hdr]; try reflexivity.
      copy_fields. reflexivity.
    + rewrite (Hbad Hn). reflexivity.
  - intros Hn. rewrite (Hbad Hn). cbn [parse_ret parse_hdr].
    split; [reflexivity|]. split; [reflexivity|].
    intros Hne Heq. apply Hne. rewrite <- Heq at 1. reflexivity.
  - intros Hn. rewrite (Hgood Hn).
    repeat match goal with
           | |- context [if ?b then _ else _] => destruct b
           end; cbn [parse_ret parse_hdr]; intros; try discriminate;
      repeat split.
  - intros Hn. rewrite (Hgood Hn).
    repeat match goal with
           | |- context [if ?b then _ else _] => destruct b
           end; cbn [parse_ret parse_hdr parse_log]; intros; try discriminate;
      repeat split.
Qed.

Lemma ParseOpusHeader_not_atomic_witness :
  kOpusHeaderSize <= data_size (replicate 19 9)
  /\ parse_ret (ParseOpusHeader (replicate 19 9) header0) = false
  /\ channels (parse_hdr (ParseOpusHeader (replicate 19 9) header0)) = 9
  /\ parse_hdr (ParseOpusHeader (replicate 19 9) header0) <> header0.
Proof.
  split; [by_evaluation|].
  destruct (ParseOpusHeader_not_atomic (replicate 19 9) header0)
    as (Hc & Hbad & _); [by_evaluation|].
  destruct Hbad as (Hret & _ & Hne); [by_evaluation|].
  split; [exact Hret|]. split; [exact Hc|].
  apply Hne. by_evaluation.
Defined.

(** *** Writing, then parsing *)

(** The parser on a buffer whose fixed region holds a mono or stereo
    header with mapping family 0. *)
Lemma ParseOpusHeader_default_layout data header nch s g :
  kOpusHeaderSize <= data_size data ->
  nch = 1 \/ nch = 2 ->
  0 <= s < 2 ^ 16 ->
  - 2 ^ 15 <= g < 2 ^ 15 ->
  byte_at data 9 = nch ->
  byte_at data 10 = s mod 256 ->
  byte_at data 11 = (s / 256) mod 256 ->
  byte_at data 16 = g mod 256 ->
  byte_at data 17 = (g / 256) mod 256 ->
  byte_at data 18 = 0 ->
  let r := ParseOpusHeader data header in
  parse_ret r = true
  /\ channels (parse_hdr r) = nch
  /\ skip_samples (parse_hdr r) = s
  /\ gain_db (parse_hdr r) = g
  /\ num_streams (parse_hdr r) = 1
  /\ num_coupled (parse_hdr r) = (if 1 <? nch then 1 else 0)
  /\ channel_mapping (parse_hdr r) = 0.
Proof.
  intros Hlen Hn Hs Hg B9 B10 B11 B16 B17 B18 r. subst r.
  rewrite (ParseOpusHeader_accepted_count data header Hlen)
    by (unfold kOpusHeaderChannelsOffset, kMaxChannels; lia).
  cbv zeta.
  destruct (ReadLE16_in_bounds data kOpusHeaderSkipSamplesOffset)
    as [_ ES]; [by_evaluation | unfold kOpusHeaderSize,
      kOpusHeaderSkipSamplesOffset in *; lia | by_evaluation |].
  destruct (ReadLE16_in_bounds data kOpusHeaderGainOffset)
    as [_ EG]; [by_evaluation | unfold kOpusHeaderSize,
      kOpusHeaderGainOffset in *; lia | by_evaluation |].
  rewrite ES, EG.
  unfold kOpusHeaderChannelMappingOffset, kOpusHeaderChannelsOffset,
    kOpusHeaderSkipSamplesOffset, kOpusHeaderGainOffset.
  change (10 + 1) with 11. change (16 + 1) with 17.
  rewrite B9, B10, B11, B16, B17, B18, !le16_join.
  change (0 =? 0) with true. cbv iota.
  ltb_is false.
  cbn [parse_ret parse_hdr channels skip_samples gain_db num_streams
       num_coupled channel_mapping set_stream_map set_num_coupled
       set_num_streams set_channel_mapping set_gain_db set_skip_samples
       set_channels].
  repeat split.
  - unfold to_uint16. rewrite Z.mod_mod by lia. apply Z.mod_small. lia.
  - apply to_int16_of_wrapped. exact Hg.
Qed.

(** C5: a header with one or two channels, written with any input sample
    rate into any buffer of at least [21 + channels] bytes, parses back:
    the writer returns 19, and the parser on the buffer it filled (whole, or
    cut to the 19 bytes returned) succeeds with the same channel count,
    pre-skip and gain (negative gains included), one stream, and a coupled
    stream exactly for stereo. *)
Theorem write_then_parse_mono_stereo header rate (output : list Z) header' :
  channels header = 1 \/ channels header = 2 ->
  0 <= skip_samples header < 2 ^ 16 ->
  - 2 ^ 15 <= gain_db header < 2 ^ 15 ->
  kOpusHeaderStreamMapOffset + channels header <= Z.of_nat (length output) ->
  exists out',
    WriteOpusHeader header rate output = Done (19, out')
    /\ forall data,
         data = out' \/ data = take 19 out' ->
         let r := ParseOpusHeader data header' in
         parse_ret r = true
         /\ channels (parse_hdr r) = channels header
         /\ skip_samples (parse_hdr r) = skip_samples header
         /\ gain_db (parse_hdr r) = gain_db header
         /\ num_streams (parse_hdr r) = 1
         /\ num_coupled (parse_hdr r)
            = (if 1 <? channels header then 1 else 0).
Proof.
  intros Hch Hs Hg Hlen.
  rewrite (WriteOpusHeader_layout header rate output) by lia.
  destruct header as [nch cm ns nc g s sm].
  cbn [channels skip_samples gain_db] in *.
  unfold kOpusHeaderStreamMapOffset in Hlen.
  set (tail := replicate _ 0).
  assert (forall data,
            data = header_bytes (mkOpusHeader nch cm ns nc g s sm) rate ++ tail
            \/ data = take 19 (header_bytes (mkOpusHeader nch cm ns nc g s sm)
                                 rate ++ tail) ->
            kOpusHeaderSize <= data_size data
            /\ byte_at data 9 = nch
            /\ byte_at data 10 = s mod 256
            /\ byte_at data 11 = (s / 256) mod 256
            /\ byte_at data 16 = g mod 256
            /\ byte_at data 17 = (g / 256) mod 256
            /\ byte_at data 18 = 0) as Hbytes.
  { intros data Hd. unfold kOpusHeaderSize, data_size.
    destruct Hch as [-> | ->];
      (match goal with
       | _ : context [header_bytes ?h rate] |- _ =>
           pose proof (header_bytes_length h rate ltac:(cbn; lia)) as HL
       end;
       change (written_size _) with 19 in HL;
       destruct Hd as [-> | ->];
       (split; [rewrite ?length_take, length_app; lia | repeat split])). }
  exists (header_bytes (mkOpusHeader nch cm ns nc g s sm) rate ++ tail).
  split.
  { destruct Hch as [-> | ->]; reflexivity. }
  intros data Hd.
  destruct (Hbytes data Hd) as (L & B9 & B10 & B11 & B16 & B17 & B18).
  destruct (ParseOpusHeader_default_layout data header' nch s g
              L Hch Hs Hg B9 B10 B11 B16 B17 B18)
    as (R1 & R2 & R3 & R4 & R5 & R6 & _).
  cbv zeta. repeat split; assumption.
Qed.

Lemma write_then_parse_mono_stereo_witness :
  (channels stereo_header = 1 \/ channels stereo_header = 2)
  /\ 0 <= skip_samples stereo_header < 2 ^ 16
  /\ - 2 ^ 15 <= gain_db stereo_header < 2 ^ 15
  /\ kOpusHeaderStreamMapOffset + channels stereo_header
     <= Z.of_nat (length (replicate 23 170))
  /\ exists out',
       WriteOpusHeader stereo_header 44100 (replicate 23 170) = Done (19, out')
       /\ parse_ret (ParseOpusHeader out' header0) = true
       /\ gain_db (parse_hdr (ParseOpusHeader out' header0)) = -5
       /\ skip_samples (parse_hdr (ParseOpusHeader out' header0)) = 312.
Proof.
  split; [right; reflexivity|].
  split; [by_evaluation|]. split; [by_evaluation|]. split; [by_evaluation|].
  destruct (write_then_parse_mono_stereo stereo_header 44100
              (replicate 23 170) header0)
    as (out' & Hw & Hp);
    [right; reflexivity | by_evaluation | by_evaluation | by_evaluation |].
  exists out'. split; [exact Hw|].
  destruct (Hp out' (or_introl eq_refl)) as (R & _ & S & G & _).
  split; [exact R|]. split; [exact G | exact S].
Defined.

(** A gain of -5 lies in the buffer as the bytes 0xFB 0xFF and reads back
    as -5. *)
Example negative_gain_bytes :
  le_bytes 2 (-5) = [251; 255]
  /\ to_int16 (ReadLE16 (replicate 16 0 ++ [251; 255; 0]) kOpusHeaderGainOffset)
     = -5.
Proof. split; reflexivity. Qed.

(** ** Further properties of the writer *)

(** X1: with one to eight channels the writer never touches memory
    outside the buffer or the table, whatever the buffer: it returns, the
    buffer keeps its length, the return value is -1 exactly when the buffer
    holds fewer than [21 + channels] bytes, and then the buffer is as it
    was. *)
Theorem WriteOpusHeader_safe header rate (output : list Z) :
  1 <= channels header <= kMaxChannels ->
  exists n out',
    WriteOpusHeader header rate output = Done (n, out')
    /\ length out' = length output
    /\ (n = -1 <->
        Z.of_nat (length output) < kOpusHeaderStreamMapOffset + channels header)
    /\ (n = -1 -> out' = output).
Proof.
  unfold kMaxChannels. intros Hc.
  destruct (Z.ltb_spec (Z.of_nat (length output))
              (kOpusHeaderStreamMapOffset + channels header)) as [Hs|Hs].
  - exists (-1), output. rewrite WriteOpusHeader_unfold.
    unfold kOpusHeaderStreamMapOffset in *.
    replace (to_size_t (21 + channels header)) with (21 + channels header)
      by (unfold to_size_t; rewrite Z.mod_small; lia).
    ltb_is true. repeat split; auto.
  - destruct (WriteOpusHeader_returned_size header rate output Hc Hs)
      as [out' [E L]].
    eexists _, out'. split; [exact E|]. split; [exact L|].
    destruct (2 <? channels header); split; try split; intros; lia.
Qed.

Lemma WriteOpusHeader_safe_witness :
  1 <= channels (header_of_channels 8) <= kMaxChannels
  /\ exists n out',
       WriteOpusHeader (header_of_channels 8) 48000 (replicate 28 1)
       = Done (n, out')
       /\ n = -1 /\ out' = replicate 28 1.
Proof.
  split; [by_evaluation|].
  destruct (WriteOpusHeader_safe (header_of_channels 8) 48000
              (replicate 28 1)) as (n & out' & E & _ & Hn & Hout);
    [by_evaluation|].
  exists n, out'. split; [exact E|].
  assert (n = -1) as Hm by (apply Hn; by_evaluation).
  split; [exact Hm | exact (Hout Hm)].
Defined.

(** X2: the fixed region the writer lays out, for one to eight channels and
    enough room: the eight bytes of "OpusHead", version 1, the channel
    count, the pre-skip as two little-endian bytes at offset 10, the input
    sample rate as four at offset 12, the gain as two at offset 16, and the
    mapping family, 1 above two channels and 0 otherwise, at offset 18. *)
Theorem WriteOpusHeader_fixed_region header rate (output : list Z) :
  1 <= channels header <= kMaxChannels ->
  kOpusHeaderStreamMapOffset + channels header <= Z.of_nat (length output) ->
  exists n out',
    WriteOpusHeader header rate output = Done (n, out')
    /\ take 8 out' = OpusHead_label
    /\ out' !! Z.to_nat kOpusHeaderVersionOffset = Some 1
    /\ out' !! Z.to_nat kOpusHeaderChannelsOffset = Some (channels header)
    /\ take 2 (drop (Z.to_nat kOpusHeaderSkipSamplesOffset) out')
       = le_bytes 2 (skip_samples header)
    /\ take 4 (drop (Z.to_nat kOpusHeaderSampleRateOffset) out')
       = le_bytes 4 rate
    /\ take 2 (drop (Z.to_nat kOpusHeaderGainOffset) out')
       = le_bytes 2 (gain_db header)
    /\ out' !! Z.to_nat kOpusHeaderChannelMappingOffset
       = Some (if 2 <? channels header then 1 else 0).
Proof.
  unfold kMaxChannels. intros Hc Hlen.
  rewrite (WriteOpusHeader_layout header rate output Hc Hlen).
  destruct header as [nch cm ns nc g s sm]. cbn [channels] in *.
  unfold header_bytes, fixed_region.
  cbn [channels skip_samples gain_db le_bytes].
  generalize (s mod 256) ((s / 256) mod 256) (g mod 256) ((g / 256) mod 256).
  generalize (rate mod 256) ((rate / 256) mod 256)
             ((rate / 256 / 256) mod 256) ((rate / 256 / 256 / 256) mod 256).
  intros r0 r1 r2 r3 s0 s1 g0 g1.
  assert (nch = 1 \/ nch = 2 \/ nch = 3 \/ nch = 4 \/ nch = 5 \/ nch = 6
          \/ nch = 7 \/ nch = 8) as Hn by lia.
  clear Hc Hlen.
  repeat (destruct Hn as [Hn | Hn]); subst nch;
    (eexists _, _; split; [reflexivity|]; repeat split).
Qed.

Lemma WriteOpusHeader_fixed_region_witness :
  1 <= channels stereo_header <= kMaxChannels
  /\ exists n out',
       WriteOpusHeader stereo_header 44100 (replicate 23 170) = Done (n, out')
       /\ take 4 (drop (Z.to_nat kOpusHeaderSampleRateOffset) out')
          = [68; 172; 0; 0].
Proof.
  split; [by_evaluation|].
  destruct (WriteOpusHeader_fixed_region stereo_header 44100
              (replicate 23 170))
    as (n & out' & E & _ & _ & _ & _ & R & _);
    [by_evaluation | by_evaluation |].
  exists n, out'. split; [exact E | exact R].
Defined.

Lemma le_bytes_congr n : forall z1 z2,
  z1 mod 2 ^ (8 * Z.of_nat n) = z2 mod 2 ^ (8 * Z.of_nat n) ->
  le_bytes n z1 = le_bytes n z2.
Proof.
  induction n as [|n IH]; intros z1 z2 H; cbn [le_bytes]; [reflexivity|].
  replace (8 * Z.of_nat (S n)) with (8 + 8 * Z.of_nat n) in H by lia.
  rewrite Z.pow_add_r in H by lia. change (2 ^ 8) with 256 in H.
  assert (0 < 2 ^ (8 * Z.of_nat n)) as HM by (apply Z.pow_pos_nonneg; lia).
  rewrite !Z.rem_mul_r in H by lia.
  pose proof (Z.mod_pos_bound z1 256 ltac:(lia)).
  pose proof (Z.mod_pos_bound z2 256 ltac:(lia)).
  assert (z1 mod 256 = z2 mod 256) as Hlow by lia.
  rewrite Hlow. f_equal. apply IH. lia.
Qed.

Lemma write_fields_length header rate (out : list Z) n out' :
  write_fields header rate out = Done (n, out') -> length out' = length out.
Proof.
  unfold write_fields. intros HF. peel HF.
  destruct (2 <? channels header); peel HF; injection HF as <- <-;
    length_back; reflexivity.
Qed.

(** What the writer's outcome depends on once the size check has passed:
    the channel count, the low 16 bits of pre-skip and gain, the low 32
    bits of the rate, and the length of the buffer. *)
Lemma WriteOpusHeader_congr h1 h2 r1 r2 (o1 o2 : list Z) :
  channels h1 = channels h2 ->
  skip_samples h1 mod 2 ^ 16 = skip_samples h2 mod 2 ^ 16 ->
  gain_db h1 mod 2 ^ 16 = gain_db h2 mod 2 ^ 16 ->
  r1 mod 2 ^ 32 = r2 mod 2 ^ 32 ->
  length o1 = length o2 ->
  to_size_t (kOpusHeaderStreamMapOffset + channels h1)
  <= Z.of_nat (length o1) ->
  WriteOpusHeader h1 r1 o1 = WriteOpusHeader h2 r2 o2.
Proof.
  intros Hc Hs Hg Hr Hl Hsz.
  rewrite !WriteOpusHeader_unfold, !memset_whole, <- Hl, <- Hc.
  ltb_is false. unfold write_fields. rewrite <- Hc.
  rewrite (le_bytes_congr 2 _ _ Hs), (le_bytes_congr 2 _ _ Hg),
    (le_bytes_congr 4 _ _ Hr).
  reflexivity.
Qed.

(** X3: the writer keeps nothing of a header but its channel count, the low
    16 bits of its pre-skip and gain, and the low 32 bits of the rate: two
    calls that agree on these and on the length of the buffer, and pass the
    size check, leave the same bytes and return the same value, whatever
    the stream counts, the mapping family and the stream map of the two
    headers and whatever the buffers held. *)
Theorem WriteOpusHeader_depends_only_on h1 h2 r1 r2 (o1 o2 : list Z) :
  channels h1 = channels h2 ->
  skip_samples h1 mod 2 ^ 16 = skip_samples h2 mod 2 ^ 16 ->
  gain_db h1 mod 2 ^ 16 = gain_db h2 mod 2 ^ 16 ->
  r1 mod 2 ^ 32 = r2 mod 2 ^ 32 ->
  length o1 = length o2 ->
  to_size_t (kOpusHeaderStreamMapOffset + channels h1)
  <= Z.of_nat (length o1) ->
  WriteOpusHeader h1 r1 o1 = WriteOpusHeader h2 r2 o2.
Proof. exact (WriteOpusHeader_congr h1 h2 r1 r2 o1 o2). Qed.

Lemma WriteOpusHeader_depends_only_on_witness :
  WriteOpusHeader (mkOpusHeader 3 1 2 1 (-5) 312 [0; 1; 2; 0; 0; 0; 0; 0])
                  48000 (replicate 24 9)
  = WriteOpusHeader (mkOpusHeader 3 0 0 0 65531 65848 []) (48000 + 2 ^ 32)
                    (replicate 24 0).
Proof.
  apply WriteOpusHeader_depends_only_on; by_evaluation.
Defined.

(** X4: writing the same header again into the buffer a successful call
    filled changes nothing: same return value, same bytes. *)
Theorem WriteOpusHeader_idempotent header rate (output : list Z) n out' :
  WriteOpusHeader header rate output = Done (n, out') ->
  n <> -1 ->
  WriteOpusHeader header rate out' = Done (n, out').
Proof.
  intros H Hn. rewrite <- H.
  rewrite WriteOpusHeader_unfold, memset_whole in H.
  destruct (Z.ltb_spec (Z.of_nat (length output))
              (to_size_t (kOpusHeaderStreamMapOffset + channels header)))
    as [Hs|Hs].
  { injection H as <- _. contradiction. }
  apply write_fields_length in H. rewrite length_replicate in H.
  apply WriteOpusHeader_congr; try reflexivity; [exact H | lia].
Qed.

Lemma WriteOpusHeader_idempotent_witness :
  WriteOpusHeader (header_of_channels 1) 8000 (replicate 24 255)
  = Done (19, [79; 112; 117; 115; 72; 101; 97; 100; 1; 1; 0; 0;
               64; 31; 0; 0; 0; 0; 0; 0; 0; 0; 0; 0])
  /\ WriteOpusHeader (header_of_channels 1) 8000
       [79; 112; 117; 115; 72; 101; 97; 100; 1; 1; 0; 0;
        64; 31; 0; 0; 0; 0; 0; 0; 0; 0; 0; 0]
     = Done (19, [79; 112; 117; 115; 72; 101; 97; 100; 1; 1; 0; 0;
                  64; 31; 0; 0; 0; 0; 0; 0; 0; 0; 0; 0]).
Proof.
  split; [vm_compute; reflexivity|].
  apply (WriteOpusHeader_idempotent (header_of_channels 1) 8000
           (replicate 24 255) 19).
  - vm_compute. reflexivity.
  - discriminate.
Defined.

(** ** Further properties of the parser *)

Lemma load_in_bounds data i :
  0 <= i < data_size data -> load data i = Done (byte_at data i).
Proof.
  intros H. unfold load, byte_at, data_size in *.
  replace (0 <=? i) with true by (symmetry; apply Z.leb_le; lia).
  ltb_is true. cbn [andb].
  destruct (lookup_lt_is_Some_2 data (Z.to_nat i)) as [x ->]; [lia|].
  reflexivity.
Qed.

Lemma ReadLE16_checked_ok data off :
  0 <= off -> off + 1 < 2 ^ 32 ->
  ReadLE16_checked data off = Done (ReadLE16 data off).
Proof.
  intros H0 H1. unfold ReadLE16_checked, ReadLE16.
  destruct (ReadLE16_starved data off) eqn:E; [reflexivity|].
  unfold ReadLE16_starved, to_uint32 in *.
  rewrite Z.mod_small in * by lia. apply Z.leb_gt in E.
  rewrite !load_in_bounds by lia. reflexivity.
Qed.

Lemma copy_stream_map_checked_ok n data : forall i h,
  0 <= i ->
  i + Z.of_nat n <= Z.of_nat (length (stream_map h)) ->
  kOpusHeaderStreamMapOffset + i + Z.of_nat n <= data_size data ->
  copy_stream_map_checked n i data h = Done (copy_stream_map n i data h).
Proof.
  induction n as [|n IH]; intros i h Hi Hs Hd;
    cbn [copy_stream_map_checked copy_stream_map]; [reflexivity|].
  unfold kOpusHeaderStreamMapOffset in *.
  rewrite load_in_bounds by lia. cbn [run_bind].
  unfold store_stream_map.
  replace (0 <=? i) with true by (symmetry; apply Z.leb_le; lia).
  ltb_is true. cbn [andb run_bind].
  apply IH; [lia | cbn [set_stream_map stream_map]; rewrite length_insert; lia
            | lia].
Qed.

(** X5: the parser never reads outside the [data_size] bytes it was given
    and never stores outside the eight-entry stream map, whatever the
    buffer holds: run with every access checked, it completes without a
    fault and gives the result of [ParseOpusHeader]. *)
Theorem ParseOpusHeader_memory_safe data header :
  length (stream_map header) = Z.to_nat kMaxChannels ->
  ParseOpusHeader_checked data header = Done (ParseOpusHeader data header).
Proof.
  intros Hsm. unfold ParseOpusHeader_checked, ParseOpusHeader.
  destruct (Z.ltb_spec (data_size data) kOpusHeaderSize) as [Hs|Hs];
    [reflexivity|].
  unfold kOpusHeaderSize, kMaxChannels, kMaxChannelsWithDefaultLayout,
    kOpusHeaderChannelsOffset, kOpusHeaderChannelMappingOffset,
    kOpusHeaderNumStreamsOffset, kOpusHeaderNumCoupledStreamsOffset,
    kOpusHeaderSkipSamplesOffset, kOpusHeaderGainOffset in *.
  rewrite load_in_bounds by lia. cbn [run_bind].
  cbn [channels set_channels].
  destruct (Z.ltb_spec (byte_at data 9) 1) as [H1|H1]; [reflexivity|].
  destruct (Z.ltb_spec 8 (byte_at data 9)) as [H8|H8]; [reflexivity|].
  cbn [orb].
  rewrite !ReadLE16_checked_ok by lia. cbn [run_bind].
  rewrite load_in_bounds by lia. cbn [run_bind].
  cbn [channels channel_mapping num_streams num_coupled
       set_channels set_skip_samples set_gain_db set_channel_mapping
       set_num_streams set_num_coupled].
  destruct (byte_at data 18 =? 0).
  - destruct (2 <? byte_at data 9); [reflexivity|].
    unfold store_stream_map.
    cbn [stream_map set_stream_map set_num_coupled set_num_streams
         set_channel_mapping set_gain_db set_skip_samples set_channels].
    rewrite Hsm.
    change ((0 <=? 0) && (0 <? Z.of_nat (Z.to_nat 8))) with true.
    cbn [run_bind stream_map set_stream_map set_num_coupled set_num_streams
         set_channel_mapping set_gain_db set_skip_samples set_channels].
    rewrite length_insert, Hsm. reflexivity.
  - replace (to_size_t (kOpusHeaderStreamMapOffset + byte_at data 9))
      with (21 + byte_at data 9)
      by (unfold to_size_t, kOpusHeaderStreamMapOffset;
          rewrite Z.mod_small; lia).
    destruct (Z.ltb_spec (data_size data) (21 + byte_at data 9)) as [Ht|Ht];
      [reflexivity|].
    rewrite !load_in_bounds by lia. cbn [run_bind].
    destruct (negb _); [reflexivity|].
    rewrite copy_stream_map_checked_ok; [reflexivity | lia | |].
    + cbn [stream_map set_num_coupled set_num_streams
           set_channel_mapping set_gain_db set_skip_samples set_channels].
      lia.
    + unfold kOpusHeaderStreamMapOffset. lia.
Qed.

Lemma ParseOpusHeader_memory_safe_witness :
  length (stream_map header0) = Z.to_nat kMaxChannels
  /\ ParseOpusHeader_checked three_channel_input header0
     = Done (ParseOpusHeader three_channel_input header0).
Proof.
  split; [reflexivity|].
  apply (ParseOpusHeader_memory_safe three_channel_input header0).
  reflexivity.
Defined.

Lemma ReadLE16_range data off : 0 <= ReadLE16 data off < 2 ^ 16.
Proof.
  unfold ReadLE16. destruct (ReadLE16_starved data off); [lia|].
  unfold to_uint16. apply Z.mod_pos_bound. lia.
Qed.

Lemma to_int16_range z : - 2 ^ 15 <= to_int16 z < 2 ^ 15.
Proof.
  unfold to_int16. pose proof (Z.mod_pos_bound z (2 ^ 16) ltac:(lia)).
  destruct (Z.ltb_spec (z mod 2 ^ 16) (2 ^ 15)); lia.
Qed.

(** The facts every accepted header carries. *)
Lemma accepted_header_facts data header :
  parse_ret (ParseOpusHeader data header) = true ->
  let h := parse_hdr (ParseOpusHeader data header) in
  1 <= channels h <= kMaxChannels
  /\ channels h = byte_at data kOpusHeaderChannelsOffset
  /\ num_streams h + num_coupled h = channels h
  /\ 0 <= skip_samples h < 2 ^ 16
  /\ - 2 ^ 15 <= gain_db h < 2 ^ 15
  /\ kOpusHeaderSize <= data_size data
  /\ (channel_mapping h = 0 -> channels h <= 2 /\ num_streams h = 1)
  /\ (channel_mapping h <> 0 ->
      kOpusHeaderStreamMapOffset + channels h <= data_size data).
Proof.
  unfold ParseOpusHeader.
  destruct (Z.ltb_spec (data_size data) kOpusHeaderSize) as [Hs|Hs];
    [discriminate|].
  unfold kOpusHeaderSize, kMaxChannels, kMaxChannelsWithDefaultLayout,
    kOpusHeaderChannelsOffset, kOpusHeaderChannelMappingOffset,
    kOpusHeaderNumStreamsOffset, kOpusHeaderNumCoupledStreamsOffset,
    kOpusHeaderStreamMapOffset in *.
  cbn [channels channel_mapping num_streams num_coupled
       set_channels set_skip_samples set_gain_db set_channel_mapping
       set_num_streams set_num_coupled].
  destruct (Z.ltb_spec (byte_at data 9) 1) as [H1|H1]; [discriminate|].
  destruct (Z.ltb_spec 8 (byte_at data 9)) as [H8|H8]; [discriminate|].
  cbn [orb].
  pose proof (ReadLE16_range data kOpusHeaderSkipSamplesOffset) as RS.
  pose proof (to_int16_range (ReadLE16 data kOpusHeaderGainOffset)) as RG.
  replace (to_size_t (21 + byte_at data 9)) with (21 + byte_at data 9)
    by (unfold to_size_t; rewrite Z.mod_small; lia).
  destruct (Z.eqb_spec (byte_at data 18) 0) as [Hf|Hf].
  - destruct (Z.ltb_spec 2 (byte_at data 9)) as [H2|H2]; [discriminate|].
    intros _.
    cbn [parse_hdr channels channel_mapping num_streams num_coupled
         skip_samples gain_db set_stream_map set_num_coupled set_num_streams
         set_channel_mapping set_gain_db set_skip_samples set_channels].
    destruct (Z.ltb_spec 1 (byte_at data 9)); repeat split; try lia.
  - destruct (Z.ltb_spec (data_size data) (21 + byte_at data 9)) as [Ht|Ht];
      [discriminate|].
    destruct (Z.eqb_spec (byte_at data 19 + byte_at data 20) (byte_at data 9))
      as [He|He]; [|discriminate].
    intros _. cbn [negb parse_hdr]. cbv zeta. copy_fields.
    cbn [channels channel_mapping num_streams num_coupled
         skip_samples gain_db set_num_coupled set_num_streams
         set_channel_mapping set_gain_db set_skip_samples set_channels].
    repeat split; try lia.
Qed.

(** X6: what every accepted header satisfies, whatever the buffer held
    and whatever the caller's header was: a channel count from 1 to 8 equal
    to byte 9, stream counts that add up to it, a pre-skip within 16 bits
    unsigned and a gain within 16 bits signed, at most two channels and one
    stream when the mapping family is 0, and a buffer of at least 19 bytes,
    and of at least [21 + channels] when the family is not 0. *)
Theorem ParseOpusHeader_accepted_invariant data header :
  parse_ret (ParseOpusHeader data header) = true ->
  let h := parse_hdr (ParseOpusHeader data header) in
  1 <= channels h <= kMaxChannels
  /\ channels h = byte_at data kOpusHeaderChannelsOffset
  /\ num_streams h + num_coupled h = channels h
  /\ 0 <= skip_samples h < 2 ^ 16
  /\ - 2 ^ 15 <= gain_db h < 2 ^ 15
  /\ kOpusHeaderSize <= data_size data
  /\ (channel_mapping h = 0 -> channels h <= 2 /\ num_streams h = 1)
  /\ (channel_mapping h <> 0 ->
      kOpusHeaderStreamMapOffset + channels h <= data_size data).
Proof. exact (accepted_header_facts data header). Qed.

Lemma ParseOpusHeader_accepted_invariant_witness :
  parse_ret (ParseOpusHeader three_channel_input header0) = true
  /\ num_streams (parse_hdr (ParseOpusHeader three_channel_input header0))
     + num_coupled (parse_hdr (ParseOpusHeader three_channel_input header0))
     = channels (parse_hdr (ParseOpusHeader three_channel_input header0)).
Proof.
  split; [reflexivity|].
  destruct (ParseOpusHeader_accepted_invariant three_channel_input header0)
    as (_ & _ & H & _); [reflexivity|].
  exact H.
Defined.

Lemma copy_stream_map_ext n d1 d2 : forall i h,
  (forall j, i <= j < i + Z.of_nat n ->
             byte_at d1 (kOpusHeaderStreamMapOffset + j)
             = byte_at d2 (kOpusHeaderStreamMapOffset + j)) ->
  copy_stream_map n i d1 h = copy_stream_map n i d2 h.
Proof.
  induction n as [|n IH]; intros i h H; cbn [copy_stream_map]; [reflexivity|].
  rewrite (H i) by lia. apply IH. intros j Hj. apply H. lia.
Qed.

Lemma ReadLE16_ext d1 d2 off :
  data_size d1 = data_size d2 ->
  byte_at d1 off = byte_at d2 off ->
  byte_at d1 (to_uint32 (off + 1)) = byte_at d2 (to_uint32 (off + 1)) ->
  ReadLE16 d1 off = ReadLE16 d2 off.
Proof.
  intros Hs H0 H1. unfold ReadLE16, ReadLE16_starved.
  rewrite Hs, H0, H1. reflexivity.
Qed.

(** X7: the parser does not look at the label, the version or the sample
    rate: two buffers of the same length that agree on byte 9 to 11 and
    from byte 16 on give the same return value, the same header and the
    same log line, whatever bytes 0 to 8 and 12 to 15 hold. *)
Theorem ParseOpusHeader_ignores_label_version_rate d1 d2 header :
  length d1 = length d2 ->
  (forall i, 9 <= i -> ~ 12 <= i < 16 -> byte_at d1 i = byte_at d2 i) ->
  ParseOpusHeader d1 header = ParseOpusHeader d2 header.
Proof.
  intros Hl Hb.
  assert (data_size d1 = data_size d2) as Hs
    by (unfold data_size; rewrite Hl; reflexivity).
  unfold ParseOpusHeader.
  unfold kOpusHeaderChannelsOffset, kOpusHeaderChannelMappingOffset,
    kOpusHeaderNumStreamsOffset, kOpusHeaderNumCoupledStreamsOffset,
    kOpusHeaderSkipSamplesOffset, kOpusHeaderGainOffset.
  rewrite Hs.
  rewrite (ReadLE16_ext d1 d2 10 Hs) by (apply Hb; by_evaluation).
  rewrite (ReadLE16_ext d1 d2 16 Hs) by (apply Hb; by_evaluation).
  rewrite (Hb 9), (Hb 18), (Hb 19), (Hb 20) by lia.
  cbn [channels channel_mapping num_streams num_coupled
       set_channels set_skip_samples set_gain_db set_channel_mapping
       set_num_streams set_num_coupled].
  rewrite (copy_stream_map_ext _ d1 d2)
    by (intros j Hj; apply Hb; unfold kOpusHeaderStreamMapOffset; lia).
  reflexivity.
Qed.

Lemma ParseOpusHeader_ignores_label_version_rate_witness :
  length three_channel_input
  = length (replicate 9 255 ++ [3; 56; 1; 9; 9; 9; 9; 251; 255; 1; 2; 1; 0; 2; 1])
  /\ ParseOpusHeader three_channel_input header0
     = ParseOpusHeader
         (replicate 9 255 ++ [3; 56; 1; 9; 9; 9; 9; 251; 255; 1; 2; 1; 0; 2; 1])
         header0.
Proof.
  split; [reflexivity|].
  apply ParseOpusHeader_ignores_label_version_rate; [reflexivity|].
  intros i H9 H12. unfold byte_at.
  assert (i = 9 \/ i = 10 \/ i = 11 \/ i = 16 \/ i = 17 \/ i = 18 \/ i = 19
          \/ i = 20 \/ i = 21 \/ i = 22 \/ i = 23 \/ 24 <= i) as Hi by lia.
  repeat (destruct Hi as [-> | Hi]); try reflexivity.
  rewrite !lookup_ge_None_2; [reflexivity | |];
    unfold three_channel_input; cbn [length app replicate]; lia.
Defined.

Lemma byte_at_app_l (data extra : list Z) i :
  0 <= i < data_size data -> byte_at (data ++ extra) i = byte_at data i.
Proof.
  intros H. unfold byte_at, data_size in *.
  rewrite lookup_app_l by lia. reflexivity.
Qed.

(** X8: bytes after an accepted header are not looked at: when the parser
    accepts a buffer, it returns the same header for the buffer with any
    bytes appended. *)
Theorem ParseOpusHeader_ignores_trailing_bytes data extra header :
  parse_ret (ParseOpusHeader data header) = true ->
  ParseOpusHeader (data ++ extra) header = ParseOpusHeader data header.
Proof.
  intros Hok.
  destruct (accepted_header_facts data header Hok)
    as (Hc & Hb9 & _ & _ & _ & Hs & _ & Hmap).
  cbv zeta in *. rewrite Hb9 in Hc.
  assert (data_size (data ++ extra) = data_size data + data_size extra) as Hsz
    by (unfold data_size; rewrite length_app; lia).
  assert (0 <= data_size extra) as Hex by (unfold data_size; lia).
  unfold kOpusHeaderSize, kMaxChannels in *.
  assert (byte_at (data ++ extra) kOpusHeaderChannelsOffset
          = byte_at data kOpusHeaderChannelsOffset) as E9
    by (apply byte_at_app_l; unfold kOpusHeaderChannelsOffset; lia).
  rewrite (ParseOpusHeader_accepted_count (data ++ extra) header)
    by (unfold kOpusHeaderSize, kMaxChannels; rewrite ?E9; lia).
  rewrite (ParseOpusHeader_accepted_count data header) in Hok, Hmap |- *
    by (unfold kOpusHeaderSize, kMaxChannels; lia).
  cbv zeta in *. rewrite E9.
  unfold kOpusHeaderChannelsOffset, kOpusHeaderChannelMappingOffset,
    kOpusHeaderNumStreamsOffset, kOpusHeaderNumCoupledStreamsOffset,
    kOpusHeaderSkipSamplesOffset, kOpusHeaderGainOffset,
    kOpusHeaderStreamMapOffset in *.
  assert (forall off, 0 <= off -> off + 1 < 19 ->
            ReadLE16 (data ++ extra) off = ReadLE16 data off) as ER.
  { intros off H0 H1.
    destruct (ReadLE16_in_bounds data off) as [_ ->]; [lia..|].
    destruct (ReadLE16_in_bounds (data ++ extra) off) as [_ ->]; [lia..|].
    rewrite !byte_at_app_l by lia. reflexivity. }
  rewrite !ER by lia.
  rewrite !(byte_at_app_l data extra 18) by lia.
  destruct (byte_at data 18 =? 0) eqn:Ef; [reflexivity|].
  destruct (Z.ltb_spec (data_size data) (21 + byte_at data 9)) as [Ht|Ht];
    [discriminate Hok|].
  ltb_is false.
  rewrite !(byte_at_app_l data extra 19), !(byte_at_app_l data extra 20) by lia.
  destruct (_ + _ =? _); [|reflexivity].
  rewrite (copy_stream_map_ext _ (data ++ extra) data)
    by (intros j Hj; apply byte_at_app_l;
        unfold kOpusHeaderStreamMapOffset; lia).
  reflexivity.
Qed.

Lemma ParseOpusHeader_ignores_trailing_bytes_witness :
  parse_ret (ParseOpusHeader three_channel_input header0) = true
  /\ ParseOpusHeader (three_channel_input ++ [7; 7; 7]) header0
     = ParseOpusHeader three_channel_input header0.
Proof.
  split; [reflexivity|].
  apply ParseOpusHeader_ignores_trailing_bytes. reflexivity.
Defined.

(** X9: the reader undoes the little-endian layout of a 16-bit field: at
    the offset where the two bytes of [z] lie in a buffer, whatever comes
    before and after, [ReadLE16] returns [z] modulo 65536. *)
Theorem ReadLE16_of_le_bytes (before after : list Z) z :
  Z.of_nat (length before) + 1 < 2 ^ 32 ->
  ReadLE16 (before ++ le_bytes 2 z ++ after) (Z.of_nat (length before))
  = z mod 2 ^ 16.
Proof.
  intros Hoff.
  destruct (ReadLE16_in_bounds (before ++ le_bytes 2 z ++ after)
              (Z.of_nat (length before))) as [_ ->];
    [lia | unfold data_size; rewrite !length_app; cbn [length le_bytes]; lia
    | lia |].
  unfold byte_at. rewrite Nat2Z.id.
  replace (Z.to_nat (Z.of_nat (length before) + 1))
    with (length before + 1)%nat by lia.
  assert ((before ++ le_bytes 2 z ++ after) !! length before
          = Some (z mod 256)) as E0.
  { rewrite lookup_app_r by lia. rewrite Nat.sub_diag. reflexivity. }
  assert ((before ++ le_bytes 2 z ++ after) !! (length before + 1)%nat
          = Some ((z / 256) mod 256)) as E1.
  { rewrite lookup_app_r by lia.
    replace (length before + 1 - length before)%nat with 1%nat by lia.
    reflexivity. }
  rewrite E0, E1. cbn [from_option]. unfold id.
  rewrite le16_join. unfold to_uint16. apply Z.mod_mod. lia.
Qed.

Lemma ReadLE16_of_le_bytes_witness :
  Z.of_nat (length [1; 2; 3]) + 1 < 2 ^ 32
  /\ ReadLE16 ([1; 2; 3] ++ le_bytes 2 (-5) ++ [9]) (Z.of_nat (length [1; 2; 3]))
     = (-5) mod 2 ^ 16.
Proof.
  split; [by_evaluation|].
  apply (ReadLE16_of_le_bytes [1; 2; 3] [9] (-5)). by_evaluation.
Defined.

(** The parser on a buffer that holds a header with an explicit stream map
    of independent streams. *)
Lemma ParseOpusHeader_explicit_layout data header nch s g :
  3 <= nch <= 8 ->
  kOpusHeaderStreamMapOffset + nch <= data_size data ->
  length (stream_map header) = Z.to_nat kMaxChannels ->
  0 <= s < 2 ^ 16 ->
  - 2 ^ 15 <= g < 2 ^ 15 ->
  byte_at data 9 = nch ->
  byte_at data 10 = s mod 256 ->
  byte_at data 11 = (s / 256) mod 256 ->
  byte_at data 16 = g mod 256 ->
  byte_at data 17 = (g / 256) mod 256 ->
  byte_at data 18 = 1 ->
  byte_at data 19 = nch ->
  byte_at data 20 = 0 ->
  let r := ParseOpusHeader data header in
  parse_ret r = true
  /\ channels (parse_hdr r) = nch
  /\ skip_samples (parse_hdr r) = s
  /\ gain_db (parse_hdr r) = g
  /\ channel_mapping (parse_hdr r) = 1
  /\ num_streams (parse_hdr r) = nch
  /\ num_coupled (parse_hdr r) = 0
  /\ stream_map (parse_hdr r)
     = take (Z.to_nat nch) (drop 21 data)
       ++ drop (Z.to_nat nch) (stream_map header).
Proof.
  intros Hn Hlen Hsm Hs Hg B9 B10 B11 B16 B17 B18 B19 B20 r. subst r.
  unfold kOpusHeaderStreamMapOffset, kMaxChannels in *.
  rewrite (ParseOpusHeader_accepted_count data header)
    by (unfold kOpusHeaderSize, kOpusHeaderChannelsOffset, kMaxChannels; lia).
  cbv zeta.
  destruct (ReadLE16_in_bounds data kOpusHeaderSkipSamplesOffset)
    as [_ ES]; [by_evaluation
               | unfold kOpusHeaderSkipSamplesOffset in *; lia
               | by_evaluation |].
  destruct (ReadLE16_in_bounds data kOpusHeaderGainOffset)
    as [_ EG]; [by_evaluation
               | unfold kOpusHeaderGainOffset in *; lia
               | by_evaluation |].
  rewrite ES, EG.
  unfold kOpusHeaderChannelMappingOffset, kOpusHeaderChannelsOffset,
    kOpusHeaderSkipSamplesOffset, kOpusHeaderGainOffset,
    kOpusHeaderNumStreamsOffset, kOpusHeaderNumCoupledStreamsOffset,
    kOpusHeaderStreamMapOffset.
  change (10 + 1) with 11. change (16 + 1) with 17.
  rewrite B9, B10, B11, B16, B17, B18, B19, B20, !le16_join.
  change (1 =? 0) with false. cbv iota.
  ltb_is false. rewrite Z.add_0_r, Z.eqb_refl.
  cbn [parse_ret parse_hdr].
  rewrite copy_stream_map_spec
    by (cbn [stream_map set_num_coupled set_num_streams
             set_channel_mapping set_gain_db set_skip_samples set_channels];
        unfold kOpusHeaderStreamMapOffset, data_size in *; lia).
  copy_fields.
  cbn [channels skip_samples gain_db num_streams num_coupled channel_mapping
       stream_map set_num_coupled set_num_streams set_channel_mapping
       set_gain_db set_skip_samples set_channels].
  repeat split.
  - unfold to_uint16. rewrite Z.mod_mod by lia. apply Z.mod_small. lia.
  - apply to_int16_of_wrapped. exact Hg.
Qed.

(** X10: a header with three to eight channels, written into a buffer of
    at least [21 + channels] bytes, parses back from that buffer: same
    channel count, pre-skip and gain, mapping family 1, and the stream
    layout the writer always emits, [channels] independent streams, none
    coupled, mapped by row [channels - 1] of the table, whatever stream
    counts and map the written header carried. *)
Theorem write_then_parse_multichannel header rate (output : list Z) header' :
  3 <= channels header <= kMaxChannels ->
  0 <= skip_samples header < 2 ^ 16 ->
  - 2 ^ 15 <= gain_db header < 2 ^ 15 ->
  kOpusHeaderStreamMapOffset + channels header <= Z.of_nat (length output) ->
  length (stream_map header') = Z.to_nat kMaxChannels ->
  exists n out' row,
    WriteOpusHeader header rate output = Done (n, out')
    /\ kOpusChannelMap !! Z.to_nat (channels header - 1) = Some row
    /\ let r := ParseOpusHeader out' header' in
       parse_ret r = true
       /\ channels (parse_hdr r) = channels header
       /\ skip_samples (parse_hdr r) = skip_samples header
       /\ gain_db (parse_hdr r) = gain_db header
       /\ channel_mapping (parse_hdr r) = 1
       /\ num_streams (parse_hdr r) = channels header
       /\ num_coupled (parse_hdr r) = 0
       /\ take (Z.to_nat (channels header)) (stream_map (parse_hdr r))
          = take (Z.to_nat (channels header)) row.
Proof.
  unfold kMaxChannels at 1. intros Hch Hs Hg Hlen Hsm.
  rewrite (WriteOpusHeader_layout header rate output) by lia.
  pose proof (header_bytes_length header rate ltac:(lia)) as HL.
  destruct header as [nch cm ns nc g s sm].
  cbn [channels skip_samples gain_db] in *.
  unfold kOpusHeaderStreamMapOffset in Hlen.
  set (tail := replicate _ 0).
  assert (nch = 3 \/ nch = 4 \/ nch = 5 \/ nch = 6 \/ nch = 7 \/ nch = 8)
    as Hn by lia.
  repeat (destruct Hn as [Hn | Hn]); subst nch;
    (eexists _, _, _; split; [reflexivity|]; split; [reflexivity|];
     match goal with
     | Hc : _ <= ?c <= _ |- context [ParseOpusHeader ?d header'] =>
         destruct (ParseOpusHeader_explicit_layout d header' c s g Hc)
           as (R1 & R2 & R3 & R4 & R5 & R6 & R7 & R8);
         [ unfold data_size, kOpusHeaderStreamMapOffset;
           rewrite length_app; change (written_size _) with (21 + c) in HL; lia
         | exact Hsm | exact Hs | exact Hg
         | reflexivity .. | ]
     end;
     cbv zeta; repeat split; try assumption;
     rewrite R8; reflexivity).
Qed.

Lemma write_then_parse_multichannel_witness :
  exists n out' row,
    WriteOpusHeader (mkOpusHeader 6 0 2 4 (-256) 312 (replicate 8 0)) 48000
                    (replicate 27 170) = Done (n, out')
    /\ kOpusChannelMap !! 5%nat = Some row
    /\ num_streams (parse_hdr (ParseOpusHeader out' header0)) = 6
    /\ num_coupled (parse_hdr (ParseOpusHeader out' header0)) = 0
    /\ gain_db (parse_hdr (ParseOpusHeader out' header0)) = -256.
Proof.
  destruct (write_then_parse_multichannel
              (mkOpusHeader 6 0 2 4 (-256) 312 (replicate 8 0)) 48000
              (replicate 27 170) header0)
    as (n & out' & row & Hw & Hrow & _ & _ & _ & Hg & _ & Hs & Hc & _);
    [by_evaluation | by_evaluation | by_evaluation | by_evaluation
    | reflexivity |].
  exists n, out', row. repeat split; assumption.
Defined.

Lemma ParseOpusHeader_reports_log_iff data header :
  parse_ret (ParseOpusHeader data header)
  = match parse_log (ParseOpusHeader data header) with
    | Some _ => false
    | None => true
    end.
Proof.
  unfold ParseOpusHeader.
  repeat match goal with
         | |- context [if ?b then _ else _] =>
             match type of b with bool => destruct b end
         end; reflexivity.
Qed.

Lemma ParseOpusHeader_default_stream_map data header :
  kOpusHeaderSize <= data_size data ->
  1 <= byte_at data 9 <= 2 ->
  byte_at data 18 = 0 ->
  stream_map (parse_hdr (ParseOpusHeader data header))
  = <[1%nat := 1]> (<[0%nat := 0]> (stream_map header)).
Proof.
  intros Hs H9 H18.
  rewrite (ParseOpusHeader_accepted_count data header Hs)
    by (unfold kOpusHeaderChannelsOffset, kMaxChannels; lia).
  cbv zeta.
  unfold kOpusHeaderChannelMappingOffset, kOpusHeaderChannelsOffset.
  rewrite H18. change (0 =? 0) with true. cbv iota. ltb_is false.
  reflexivity.
Qed.

Lemma OpusHeader_eq (a b : OpusHeader) :
  channels a = channels b -> channel_mapping a = channel_mapping b ->
  num_streams a = num_streams b -> num_coupled a = num_coupled b ->
  gain_db a = gain_db b -> skip_samples a = skip_samples b ->
  stream_map a = stream_map b -> a = b.
Proof.
  destruct a, b. cbn. intros. subst. reflexivity.
Qed.

(** X11: a header parsed from a buffer with mapping family 0 survives
    being written and parsed again: the writer accepts it in any buffer of
    at least [21 + channels] bytes, and parsing the written bytes into that
    same header leaves it exactly as it was, field for field. *)
Theorem parse_write_parse_default_layout data header0' rate (output : list Z) :
  parse_ret (ParseOpusHeader data header0') = true ->
  channel_mapping (parse_hdr (ParseOpusHeader data header0')) = 0 ->
  kOpusHeaderStreamMapOffset
  + channels (parse_hdr (ParseOpusHeader data header0'))
  <= Z.of_nat (length output) ->
  exists out',
    WriteOpusHeader (parse_hdr (ParseOpusHeader data header0')) rate output
    = Done (19, out')
    /\ ParseOpusHeader out' (parse_hdr (ParseOpusHeader data header0'))
       = mkParse true (parse_hdr (ParseOpusHeader data header0')) None.
Proof.
  intros Hok Hfam Hlen.
  destruct (accepted_header_facts data header0' Hok)
    as (Hc & Hb9 & Hsum & Hs & Hg & Hsz & Hdef & _).
  cbv zeta in *. destruct (Hdef Hfam) as [Hc2 Hns].
  assert (stream_map (parse_hdr (ParseOpusHeader data header0'))
          = <[1%nat := 1]> (<[0%nat := 0]> (stream_map header0'))) as Hmap.
  { apply ParseOpusHeader_default_stream_map; [exact Hsz | |].
    - unfold kOpusHeaderChannelsOffset in Hb9. rewrite <- Hb9. lia.
    - revert Hfam.
      rewrite (ParseOpusHeader_accepted_count data header0' Hsz)
        by (rewrite <- Hb9; exact Hc).
      cbv zeta. unfold kOpusHeaderChannelMappingOffset.
      repeat match goal with
             | |- context [if ?b then _ else _] => destruct b
             end; cbn [parse_hdr]; try copy_fields; cbn; auto. }
  revert Hlen Hc Hsum Hs Hg Hc2 Hns Hmap Hfam.
  generalize (parse_hdr (ParseOpusHeader data header0')).
  clear Hok Hb9 Hdef Hsz. intros h Hlen Hc Hsum Hs Hg Hc2 Hns Hmap Hfam.
  unfold kMaxChannels in Hc.
  rewrite (WriteOpusHeader_layout h rate output) by lia.
  set (tail := replicate _ 0).
  set (d := header_bytes h rate ++ tail).
  assert (kOpusHeaderSize <= data_size d
          /\ byte_at d 9 = channels h
          /\ byte_at d 10 = skip_samples h mod 256
          /\ byte_at d 11 = (skip_samples h / 256) mod 256
          /\ byte_at d 16 = gain_db h mod 256
          /\ byte_at d 17 = (gain_db h / 256) mod 256
          /\ byte_at d 18 = 0)
    as (L & B9 & B10 & B11 & B16 & B17 & B18).
  { pose proof (header_bytes_length h rate ltac:(lia)) as HL.
    subst d. unfold kOpusHeaderSize, data_size. rewrite length_app.
    destruct h as [nch cm ns nc g s sm]. cbn [channels skip_samples gain_db] in *.
    assert (nch = 1 \/ nch = 2) as [-> | ->] by lia;
      change (written_size _) with 19 in HL;
      (split; [lia | repeat split]). }
  exists d. split.
  { unfold returned_size. ltb_is false. reflexivity. }
  destruct (ParseOpusHeader_default_layout d h (channels h)
              (skip_samples h) (gain_db h) L ltac:(lia) Hs Hg
              B9 B10 B11 B16 B17 B18)
    as (R1 & R2 & R3 & R4 & R5 & R6 & R7).
  pose proof (ParseOpusHeader_default_stream_map d h L ltac:(lia) B18) as R8.
  assert (parse_log (ParseOpusHeader d h) = None) as R9.
  { pose proof (ParseOpusHeader_reports_log_iff d h) as HL0.
    destruct (parse_log (ParseOpusHeader d h)); [|reflexivity].
    rewrite R1 in HL0. discriminate HL0. }
  destruct (ParseOpusHeader d h) as [ret hdr lg].
  cbn [parse_ret parse_hdr parse_log] in *. subst ret lg. f_equal.
  apply OpusHeader_eq; try congruence.
  - rewrite R6. destruct (Z.ltb_spec 1 (channels h)); lia.
  - rewrite R8, Hmap.
    destruct (stream_map header0') as [|a [|b l]]; reflexivity.
Qed.

Lemma parse_write_parse_default_layout_witness :
  parse_ret (ParseOpusHeader stereo_input header0) = true
  /\ exists out',
       WriteOpusHeader (parse_hdr (ParseOpusHeader stereo_input header0)) 8000
                       (replicate 23 77) = Done (19, out')
       /\ ParseOpusHeader out' (parse_hdr (ParseOpusHeader stereo_input header0))
          = mkParse true (parse_hdr (ParseOpusHeader stereo_input header0)) None.
Proof.
  split; [reflexivity|].
  apply (parse_write_parse_default_layout stereo_input header0 8000
           (replicate 23 77)); by_evaluation.
Defined.

(** ** Properties of AudioInputDescriptor and AudioInputCollection *)

Section AudioInputProperties.

Variable source_priority : Z -> Z.
Variable AUDIO_SOURCE_DEFAULT : Z.
Variable AUDIO_SOURCE_VOICE_RECOGNITION : Z.
Variable AUDIO_SOURCE_HOTWORD : Z.
Variable AUDIO_DEVICE_IN_DEFAULT : Z.
Variable AUDIO_DEVICE_BIT_IN : Z.
Variable isActive : AudioInputDescriptor -> bool.
Variable is_virtual_input_device : Z -> bool.

Lemma getHighestPrioritySource_loop_spec clients activeOnly :
  forall source priority,
    let r := getHighestPrioritySource_loop source_priority clients activeOnly
               source priority in
    (r = source
     /\ forall c, In c clients -> considered activeOnly c ->
                  source_priority (client.source c) <= priority)
    \/ (exists c, In c clients /\ considered activeOnly c
                  /\ r = client.source c
                  /\ priority < source_priority r
                  /\ forall c', In c' clients -> considered activeOnly c' ->
                                source_priority (client.source c')
                                <= source_priority r).
Proof.
  unfold considered.
  induction clients as [|c rest IH]; intros source priority;
    cbn [getHighestPrioritySource_loop].
  - left. split; [reflexivity|]. intros c [].
  - destruct (activeOnly && negb (client.active c)) eqn:Eskip.
    + apply andb_prop in Eskip as [-> Hna].
      apply Bool.negb_true_iff in Hna.
      destruct (IH source priority) as [[Hr Hall] | (c0 & Hin & Hc0 & Hr & Hp & Hall)].
      * left. split; [exact Hr|]. intros c' [<- | Hin] Hc'.
        -- specialize (Hc' eq_refl). congruence.
        -- apply Hall; assumption.
      * right. exists c0. repeat split; try assumption; [right; exact Hin|].
        intros c' [<- | Hin'] Hc'.
        -- specialize (Hc' eq_refl). congruence.
        -- apply Hall; assumption.
    + assert (considered activeOnly c) as Hcc.
      { unfold considered. intros ->. cbn in Eskip.
        apply Bool.negb_false_iff in Eskip. exact Eskip. }
      cbv zeta.
      destruct (Z.ltb_spec priority (source_priority (client.source c)))
        as [Hlt|Hge].
      * destruct (IH (client.source c) (source_priority (client.source c)))
          as [[Hr Hall] | (c0 & Hin & Hc0 & Hr & Hp & Hall)].
        -- right. exists c. rewrite Hr.
           repeat split; try assumption; [left; reflexivity|].
           intros c' [<- | Hin'] Hc'; [lia | apply Hall; assumption].
        -- right. exists c0. repeat split; try assumption;
             [right; exact Hin | lia |].
           intros c' [<- | Hin'] Hc'; [lia | apply Hall; assumption].
      * destruct (IH source priority)
          as [[Hr Hall] | (c0 & Hin & Hc0 & Hr & Hp & Hall)].
        -- left. split; [exact Hr|].
           intros c' [<- | Hin'] Hc'; [lia | apply Hall; assumption].
        -- right. exists c0. repeat split; try assumption;
             [right; exact Hin|].
           intros c' [<- | Hin'] Hc'; [lia | apply Hall; assumption].
Qed.

(** X12: [getHighestPrioritySource] returns the source of a client of
    highest priority among those it looks at (all clients, or the active
    ones with [activeOnly]), provided that priority is above -1; when no
    client it looks at has a priority above -1, and so when there is none,
    it returns [AUDIO_SOURCE_DEFAULT]. *)
Theorem getHighestPrioritySource_maximal (d : AudioInputDescriptor) activeOnly :
  let r := AudioInputDescriptor_getHighestPrioritySource
             source_priority AUDIO_SOURCE_DEFAULT d activeOnly in
  (r = AUDIO_SOURCE_DEFAULT
   /\ forall c, In c (mClients d) -> considered activeOnly c ->
                source_priority (client.source c) <= -1)
  \/ (exists c, In c (mClients d) /\ considered activeOnly c
                /\ r = client.source c
                /\ -1 < source_priority r
                /\ forall c', In c' (mClients d) -> considered activeOnly c' ->
                              source_priority (client.source c')
                              <= source_priority r).
Proof.
  exact (getHighestPrioritySource_loop_spec (mClients d) activeOnly
           AUDIO_SOURCE_DEFAULT (-1)).
Qed.

Lemma isSourceActive_loop_true clients source :
  isSourceActive_loop AUDIO_SOURCE_VOICE_RECOGNITION AUDIO_SOURCE_HOTWORD
    clients source = true <->
  exists c, In c clients /\ client.active c = true
            /\ (client.source c = source
                \/ (source = AUDIO_SOURCE_VOICE_RECOGNITION
                    /\ client.source c = AUDIO_SOURCE_HOTWORD
                    /\ client.isSoundTrigger c = true)).
Proof.
  induction clients as [|c rest IH]; cbn [isSourceActive_loop].
  - split; [discriminate | intros (c & [] & _)].
  - destruct (client.active c) eqn:Ea; cbn [andb].
    + destruct (Z.eqb_spec (client.source c) source) as [Es|Es]; cbn [orb].
      * split; [|reflexivity]. intros _. exists c. auto with datatypes.
      * destruct (Z.eqb_spec source AUDIO_SOURCE_VOICE_RECOGNITION) as [Ev|Ev];
          cbn [andb].
        -- destruct (Z.eqb_spec (client.source c) AUDIO_SOURCE_HOTWORD)
             as [Eh|Eh]; cbn [andb].
           ++ destruct (client.isSoundTrigger c) eqn:Et.
              ** split; [|reflexivity]. intros _. exists c.
                 auto 6 with datatypes.
              ** rewrite IH. split.
                 --- intros (c0 & Hin & H). exists c0. auto with datatypes.
                 --- intros (c0 & [<- | Hin] & Ha & H); [|eauto].
                     destruct H as [H | (_ & _ & H)]; congruence.
           ++ rewrite IH. split.
              ** intros (c0 & Hin & H). exists c0. auto with datatypes.
              ** intros (c0 & [<- | Hin] & Ha & H); [|eauto].
                 destruct H as [H | (_ & H & _)]; congruence.
        -- rewrite IH. split.
           ++ intros (c0 & Hin & H). exists c0. auto with datatypes.
           ++ intros (c0 & [<- | Hin] & Ha & H); [|eauto].
              destruct H as [H | (H & _)]; congruence.
    + rewrite IH. split.
      * intros (c0 & Hin & H). exists c0. auto with datatypes.
      * intros (c0 & [<- | Hin] & Ha & H); [congruence | eauto].
Qed.

(** X13: the source [inputSource] reports for the active clients, when it
    is not [AUDIO_SOURCE_DEFAULT], is a source [isSourceActive] confirms. *)
Theorem inputSource_is_active (d : AudioInputDescriptor) :
  AudioInputDescriptor_inputSource source_priority AUDIO_SOURCE_DEFAULT d true
  <> AUDIO_SOURCE_DEFAULT ->
  AudioInputDescriptor_isSourceActive
    AUDIO_SOURCE_VOICE_RECOGNITION AUDIO_SOURCE_HOTWORD d
    (AudioInputDescriptor_inputSource source_priority AUDIO_SOURCE_DEFAULT
       d true) = true.
Proof.
  unfold AudioInputDescriptor_inputSource,
    AudioInputDescriptor_getHighestPrioritySource,
    AudioInputDescriptor_isSourceActive.
  intros Hne.
  destruct (getHighestPrioritySource_loop_spec (mClients d) true
              AUDIO_SOURCE_DEFAULT (-1))
    as [[Hr _] | (c & Hin & Hc & Hr & _)]; [contradiction|].
  apply isSourceActive_loop_true. exists c.
  split; [exact Hin|]. split; [exact (Hc eq_refl)|]. left. symmetry. exact Hr.
Qed.


(** X14: [AudioInputCollection::isSourceActive] answers true exactly when
    some input of the collection has an active client with that source, or,
    asked for voice recognition, an active sound-trigger client whose
    source is hotword. *)
Theorem AudioInputCollection_isSourceActive_iff
    (inputs : list AudioInputDescriptor) source :
  AudioInputCollection_isSourceActive
    AUDIO_SOURCE_VOICE_RECOGNITION AUDIO_SOURCE_HOTWORD inputs source = true
  <->
  exists d c,
    In d inputs /\ In c (mClients d) /\ client.active c = true
    /\ (client.source c = source
        \/ (source = AUDIO_SOURCE_VOICE_RECOGNITION
            /\ client.source c = AUDIO_SOURCE_HOTWORD
            /\ client.isSoundTrigger c = true)).
Proof.
  induction inputs as [|d rest IH]; cbn [AudioInputCollection_isSourceActive].
  - split; [discriminate | intros (d & c & [] & _)].
  - unfold AudioInputDescriptor_isSourceActive at 1.
    destruct (isSourceActive_loop AUDIO_SOURCE_VOICE_RECOGNITION
                AUDIO_SOURCE_HOTWORD (mClients d) source) eqn:E.
    + split; [|reflexivity]. intros _.
      apply isSourceActive_loop_true in E as (c & Hin & H).
      exists d, c. auto with datatypes.
    + rewrite IH. split.
      * intros (d0 & c & Hin & H). exists d0, c. auto with datatypes.
      * intros (d0 & c & [<- | Hin] & Hc & H); [|eauto].
        assert (isSourceActive_loop AUDIO_SOURCE_VOICE_RECOGNITION
                  AUDIO_SOURCE_HOTWORD (mClients d) source = true) as E'
          by (apply isSourceActive_loop_true; eauto).
        congruence.
Qed.

(** X15: [getInputFromId] returns the first input of the collection whose
    id is the one asked for, and [NULL] exactly when no input has it. *)
Theorem AudioInputCollection_getInputFromId_first
    (inputs : list AudioInputDescriptor) id :
  match AudioInputCollection_getInputFromId inputs id with
  | Some d =>
      mId d = id
      /\ exists before after,
           inputs = before ++ d :: after
           /\ forall d', In d' before -> mId d' <> id
  | None => forall d, In d inputs -> mId d <> id
  end.
Proof.
  induction inputs as [|d rest IH]; cbn [AudioInputCollection_getInputFromId].
  - intros d [].
  - destruct (Z.eqb_spec (mId d) id) as [E|E].
    + split; [exact E|]. exists [], rest. split; [reflexivity|]. intros d' [].
    + destruct (AudioInputCollection_getInputFromId rest id) as [d0|].
      * destruct IH as (Hid & before & after & -> & Hb).
        split; [exact Hid|]. exists (d :: before), after.
        split; [reflexivity|]. intros d' [<- | Hin]; auto.
      * intros d' [<- | Hin]; auto.
Qed.

Lemma activeInputsCountOnDevices_loop_spec inputs devices : forall count,
  activeInputsCountOnDevices_loop AUDIO_DEVICE_IN_DEFAULT AUDIO_DEVICE_BIT_IN
    isActive inputs devices (to_uint32 count)
  = to_uint32
      (count
       + Z.of_nat
           (length
              (List.filter
                 (fun d =>
                    isActive d &&
                    ((devices =? AUDIO_DEVICE_IN_DEFAULT) ||
                     negb (Z.land (Z.land (mDevice d) devices)
                                  (to_uint32 (Z.lnot AUDIO_DEVICE_BIT_IN))
                           =? 0)))
                 inputs))).
Proof.
  induction inputs as [|d rest IH]; intros count;
    cbn [activeInputsCountOnDevices_loop List.filter].
  - cbn [length]. rewrite Z.add_0_r. reflexivity.
  - destruct (isActive d && _).
    + replace (to_uint32 (to_uint32 count + 1)) with (to_uint32 (count + 1))
        by (unfold to_uint32; rewrite Z.add_mod_idemp_l by lia; reflexivity).
      rewrite IH. cbn [length]. f_equal. lia.
    + apply IH.
Qed.

Lemma getActiveInputs_loop_spec inputs ignoreVirtualInputs :
  forall activeInputs,
    getActiveInputs_loop isActive is_virtual_input_device inputs
      ignoreVirtualInputs activeInputs
    = activeInputs
      ++ List.filter
           (fun d =>
              isActive d &&
              (negb ignoreVirtualInputs
               || negb (is_virtual_input_device (mDevice d))))
           inputs.
Proof.
  induction inputs as [|d rest IH]; intros acc;
    cbn [getActiveInputs_loop List.filter].
  - rewrite app_nil_r. reflexivity.
  - rewrite IH. destruct (isActive d && _); [|reflexivity].
    rewrite <- app_assoc. reflexivity.
Qed.

(** X16: asked for [AUDIO_DEVICE_IN_DEFAULT], [activeInputsCountOnDevices]
    counts, modulo 2^32, the inputs [getActiveInputs] returns when virtual
    inputs are not ignored; asked with virtual inputs ignored,
    [getActiveInputs] returns some of those, in the same order. *)
Theorem activeInputsCount_matches_getActiveInputs
    (inputs : list AudioInputDescriptor) :
  AudioInputCollection_activeInputsCountOnDevices
    AUDIO_DEVICE_IN_DEFAULT AUDIO_DEVICE_BIT_IN isActive inputs
    AUDIO_DEVICE_IN_DEFAULT
  = to_uint32
      (Z.of_nat
         (length
            (AudioInputCollection_getActiveInputs
               isActive is_virtual_input_device inputs false)))
  /\ sublist
       (AudioInputCollection_getActiveInputs
          isActive is_virtual_input_device inputs true)
       (AudioInputCollection_getActiveInputs
          isActive is_virtual_input_device inputs false).
Proof.
  unfold AudioInputCollection_activeInputsCountOnDevices,
    AudioInputCollection_getActiveInputs.
  rewrite !getActiveInputs_loop_spec. cbn [app]. split.
  - change 0 with (to_uint32 0) at 1.
    rewrite activeInputsCountOnDevices_loop_spec, Z.add_0_l.
    rewrite (List.filter_ext _ (fun d => isActive d
               && (negb false || negb (is_virtual_input_device (mDevice d)))));
      [reflexivity|].
    intros d. rewrite Z.eqb_refl. reflexivity.
  - induction inputs as [|d rest IH]; cbn [List.filter negb orb];
      [constructor|].
    rewrite Bool.andb_true_r.
    destruct (isActive d); cbn [andb]; [|exact IH].
    destruct (negb (is_virtual_input_device (mDevice d)));
      [apply sublist_skip | apply sublist_cons]; exact IH.
Qed.

Lemma clientsList_loop_spec rest activeOnly source preferredDeviceOnly :
  forall clients,
    clientsList_loop AUDIO_SOURCE_DEFAULT rest activeOnly source
      preferredDeviceOnly clients
    = clients
      ++ List.filter
           (fun c =>
              (negb activeOnly || client.active c)
              && ((source =? AUDIO_SOURCE_DEFAULT)
                  || (source =? client.source c))
              && (negb preferredDeviceOnly || client.hasPreferredDevice c))
           rest.
Proof.
  induction rest as [|c rest IH]; intros acc;
    cbn [clientsList_loop List.filter].
  - rewrite app_nil_r. reflexivity.
  - rewrite IH. destruct (_ && _ && _); [|reflexivity].
    rewrite <- app_assoc. reflexivity.
Qed.

(** X17: every client [clientsList] returns is a client of the input that
    passes the three filters asked for; and when the active clients of a
    given source (other than [AUDIO_SOURCE_DEFAULT]) are asked for and one
    is returned, [isSourceActive] confirms the source. *)
Theorem clientsList_sound (d : AudioInputDescriptor)
    activeOnly source preferredDeviceOnly c :
  In c (AudioInputDescriptor_clientsList AUDIO_SOURCE_DEFAULT d
          activeOnly source preferredDeviceOnly) ->
  In c (mClients d)
  /\ (activeOnly = true -> client.active c = true)
  /\ (source = AUDIO_SOURCE_DEFAULT \/ source = client.source c)
  /\ (preferredDeviceOnly = true -> client.hasPreferredDevice c = true)
  /\ (activeOnly = true -> source <> AUDIO_SOURCE_DEFAULT ->
      AudioInputDescriptor_isSourceActive
        AUDIO_SOURCE_VOICE_RECOGNITION AUDIO_SOURCE_HOTWORD d source = true).
Proof.
  unfold AudioInputDescriptor_clientsList.
  rewrite clientsList_loop_spec. cbn [app].
  intros Hin. apply filter_In in Hin as [Hin Hf].
  apply andb_prop in Hf as [Hf Hp]. apply andb_prop in Hf as [Ha Hs].
  assert (activeOnly = true -> client.active c = true) as Hact
    by (intros ->; exact Ha).
  assert (source = AUDIO_SOURCE_DEFAULT \/ source = client.source c) as Hsrc.
  { apply Bool.orb_prop in Hs as [Hs | Hs]; apply Z.eqb_eq in Hs; auto. }
  split; [exact Hin|]. split; [exact Hact|]. split; [exact Hsrc|].
  split; [intros ->; exact Hp|].
  intros Hao Hne. unfold AudioInputDescriptor_isSourceActive.
  apply isSourceActive_loop_true. exists c.
  destruct Hsrc as [Hsrc | Hsrc]; [contradiction|]. auto.
Qed.

End AudioInputProperties.

Lemma inputSource_is_active_witness :
  AudioInputDescriptor_inputSource example_source_priority 0 example_input true
  <> 0
  /\ AudioInputDescriptor_isSourceActive 6 1999 example_input
       (AudioInputDescriptor_inputSource example_source_priority 0
          example_input true) = true.
Proof.
  split; [by_evaluation|].
  apply (inputSource_is_active example_source_priority 0 6 1999 example_input).
  by_evaluation.
Defined.

Lemma clientsList_sound_witness :
  In (client.mk 12 2 5 true false true)
     (AudioInputDescriptor_clientsList 0 example_input true 5 false)
  /\ AudioInputDescriptor_isSourceActive 6 1999 example_input 5 = true.
Proof.
  assert (In (client.mk 12 2 5 true false true)
            (AudioInputDescriptor_clientsList 0 example_input true 5 false))
    as Hin by (left; reflexivity).
  split; [exact Hin|].
  destruct (clientsList_sound 0 6 1999 example_input true 5 false _ Hin)
    as (_ & _ & _ & _ & H).
  apply H; [reflexivity | discriminate].
Defined.
